(** * Device protocol engine of the serial terminal

    A shallow embedding of the protocol code of the serial terminal
    (the TypeScript module that talks to a Shimmer3 sensor over Web
    Serial): the command catalog ([ConvertHexStringToByteArray] and the
    command constants), the sample decoder ([ParseData]), the chunk
    handler of the read loop in [connectToPort] (reassembly into [temp]
    and the frame decoders) and the timer chain that [connectToPort]
    registers after the port opens.

    Conventions.
    - A [Uint8Array] is a [list Z] whose elements lie in [0, 256).
    - A JavaScript string is the list of its UTF-16 code units.
    - Array indices are [nat]; a read beyond the end is [undefined].
    - Numbers are integers; every number computed by this code stays far
      below 2^53, so double arithmetic on them is exact.  The 32-bit
      operators [&] and [<<] are written with their wrap-around. *)

From Stdlib Require Import ZArith List String Ascii Bool Lia.
From Stdlib Require Import Decimal DecimalString DecimalNat.
From stdpp Require Import base list.
From Equations Require Import Equations.
Import ListNotations.

Local Open Scope string_scope.
Local Open Scope list_scope.
Local Open Scope Z_scope.

(** ** JavaScript values and operators used by the code *)

Module Js.

(** A value read from an array or held in a [let x: number] variable:
    an (integer) number, or [undefined] when the index is out of range
    or the variable has never been assigned. *)
Inductive value : Type :=
| undefined
| num (n : Z).

(** Result of [parseInt]. *)
Inductive parsed : Type :=
| NaN
| Int (n : Z).

(** What a [throw] carries.  [TypeError] is the engine's error for a
    property read on [undefined]. *)
Inductive exn : Type :=
| Error (message : string)
| TypeError.

(** Completion of a call: it returns, or it throws. *)
Inductive completion (A : Type) : Type :=
| Normal (a : A)
| Throw (e : exn).
Arguments Normal {A} a.
Arguments Throw {A} e.

(** [a[i]] on a typed array. *)
Definition get (a : list Z) (i : nat) : value :=
  match a !! i with
  | Some b => num b
  | None => undefined
  end.

(** [v == n] for a number literal [n]: [undefined == n] is false. *)
Definition eqn (v : value) (n : Z) : bool :=
  match v with
  | num m => m =? n
  | undefined => false
  end.

(** [v != n]. *)
Definition neqn (v : value) (n : Z) : bool := negb (eqn v n).

(** Reduction of an integer to a signed 32-bit integer. *)
Definition wrap32 (n : Z) : Z := (n + 2 ^ 31) mod 2 ^ 32 - 2 ^ 31.

(** [ToInt32]: [undefined] converts to [NaN], which converts to 0. *)
Definition ToInt32 (v : value) : Z :=
  match v with
  | undefined => 0
  | num n => wrap32 n
  end.

(** [v & m]. *)
Definition band (v : value) (m : Z) : Z := Z.land (ToInt32 v) (wrap32 m).

(** [a << k]. *)
Definition shl (a : Z) (k : Z) : Z := wrap32 (Z.shiftl (wrap32 a) (k mod 32)).

(** Storing a number into a [Uint8Array] element ([ToUint8]):
    [NaN] becomes 0, an integer is reduced modulo 256. *)
Definition ToUint8 (p : parsed) : Z :=
  match p with
  | NaN => 0
  | Int n => n mod 256
  end.

(** [s.substr(start, len)] for in-range [start]. *)
Definition substr {A} (s : list A) (start len : nat) : list A :=
  take len (drop start s).

(** [a.subarray(b, e)]. *)
Definition subarray {A} (a : list A) (b e : nat) : list A :=
  take (e - b) (drop b a).

(** The code units of an ASCII literal. *)
Definition units (s : string) : list Z :=
  map (fun c => Z.of_N (N_of_ascii c)) (list_ascii_of_string s).

(** *** [parseInt(s, 16)] *)

(** [StrWhiteSpaceChar]: white space and line terminators. *)
Definition is_white_space (c : Z) : bool :=
  (c =? 9) || (c =? 10) || (c =? 11) || (c =? 12) || (c =? 13)
  || (c =? 32) || (c =? 160) || (c =? 5760)
  || ((8192 <=? c) && (c <=? 8202))
  || (c =? 8232) || (c =? 8233) || (c =? 8239) || (c =? 8287)
  || (c =? 12288) || (c =? 65279).

(** Value of a radix-16 digit. *)
Definition hex_digit (c : Z) : option Z :=
  if (48 <=? c) && (c <=? 57) then Some (c - 48)
  else if (97 <=? c) && (c <=? 102) then Some (c - 87)
  else if (65 <=? c) && (c <=? 70) then Some (c - 55)
  else None.

Definition is_hex (c : Z) : bool :=
  match hex_digit c with Some _ => true | None => false end.

Fixpoint skip_white_space (s : list Z) : list Z :=
  match s with
  | c :: r => if is_white_space c then skip_white_space r else s
  | [] => []
  end.

(** The longest prefix of radix-16 digits, as digit values. *)
Fixpoint digits_prefix (s : list Z) : list Z :=
  match s with
  | c :: r =>
      match hex_digit c with
      | Some d => d :: digits_prefix r
      | None => []
      end
  | [] => []
  end.

Definition digits_value (ds : list Z) : Z :=
  fold_left (fun acc d => 16 * acc + d) ds 0.

(** [parseInt(s, 16)]: trim leading white space, take an optional
    sign, strip an optional [0x]/[0X], read the longest prefix of hex
    digits; [NaN] when that prefix is empty. *)
Definition parseInt16 (s : list Z) : parsed :=
  let s := skip_white_space s in
  let sign := match s with c :: _ => if c =? 45 then -1 else 1 | [] => 1 end in
  let s := match s with
           | c :: r => if (c =? 43) || (c =? 45) then r else s
           | [] => s
           end in
  let s := match s with
           | c0 :: c1 :: r =>
               if (c0 =? 48) && ((c1 =? 120) || (c1 =? 88)) then r else s
           | _ => s
           end in
  match digits_prefix s with
  | [] => NaN
  | ds => Int (sign * digits_value ds)
  end.

(** [for (let i = a; i < a + n; i++) body], as a fold over the
    indices. *)
Definition for_range {S} (a n : nat) (body : nat -> S -> S) (s : S) : S :=
  fold_left (fun s i => body i s) (seq a n) s.

End Js.

(** ** Command catalog *)

Module Catalog.
Import Js.

(** [ConvertHexStringToByteArray].  The loop assigns [byteArray[i]]
    for [i < numBytes] only, always inside the array. *)
Definition ConvertHexStringToByteArray (hexString : list Z)
  : completion (list Z) :=
  if (length hexString =? 0)%nat then
    Throw (Error "hex string cannot be empty")
  else if negb (length hexString mod 2 =? 0)%nat then
    Throw (Error "Must have an even number of hex digits")
  else
    let numBytes := (length hexString / 2)%nat in
    let byteArray := replicate numBytes 0 in
    Normal
      (for_range 0 numBytes
         (fun i byteArray =>
            <[i := ToUint8 (parseInt16 (substr hexString (i * 2) 2))]>
              byteArray)
         byteArray).

(** A module-level constant [const C = ConvertHexStringToByteArray(s)]:
    the returned array (a throw would abort the module's evaluation;
    none of the literals below throws). *)
Definition constant (s : string) : list Z :=
  match ConvertHexStringToByteArray (units s) with
  | Normal a => a
  | Throw _ => []
  end.

Definition GET_FIRMWARE_VERSION_COMMAND : list Z := constant "2E".
Definition GET_SHIMMER_VERSION_COMMAND : list Z := constant "3F".
Definition START_STREAMING_COMMAND : list Z := constant "07".
Definition STOP_STREAMING_COMMAND : list Z := constant "20".
Definition GET_EXG_REG1_COMMAND : list Z := constant "6300000A".
Definition GET_EXG_REG2_COMMAND : list Z := constant "6301000A".
Definition SET_EXG_REG1_COMMAND : list Z := constant "6100000A".
Definition SET_EXG_REG2_COMMAND : list Z := constant "6100010A".
Definition SHIMMER3_DEFAULT_TEST_REG1 : list Z :=
  [0; 163; 16; 69; 69; 0; 0; 0; 2; 1].
Definition SHIMMER3_DEFAULT_TEST_REG2 : list Z :=
  [0; 163; 16; 69; 69; 0; 0; 0; 2; 1].

End Catalog.

(** ** Sample decoder *)

Module Sample.
Import Js.

(** The loop of [ParseData]: [j] is the read position in [data],
    [parsedData] the values pushed so far.  A type name other than the
    three tested ones matches no branch: nothing is pushed and [j]
    stays. *)
Fixpoint ParseData_loop (data : list Z) (dataTypes : list string)
  (j : nat) (parsedData : list value) : list value :=
  match dataTypes with
  | [] => parsedData
  | ty :: rest =>
      if (ty =? "u8")%string then
        ParseData_loop data rest (j + 1) (parsedData ++ [get data j])
      else if (ty =? "u24")%string then
        ParseData_loop data rest (j + 3)
          (parsedData ++
             [num (band (get data j) 255
                   + shl (band (get data (j + 1)) 255) 8
                   + shl (band (get data (j + 2)) 255) 16)])
      else if (ty =? "i24r")%string then
        ParseData_loop data rest (j + 3)
          (parsedData ++
             [num (shl (band (get data j) 255) 16
                   + shl (band (get data (j + 1)) 255) 8
                   + band (get data (j + 2)) 255)])
      else
        ParseData_loop data rest j parsedData
  end.

(** [ParseData]. *)
Definition ParseData (data : list Z) (dataTypes : list string) : list value :=
  ParseData_loop data dataTypes 0 [].

(** A call of [ParseData] as a completion: the function has no [throw]
    and a typed-array read past the end evaluates to [undefined], so
    every call returns. *)
Definition call_ParseData (data : list Z) (dataTypes : list string)
  : completion (list value) :=
  Normal (ParseData data dataTypes).

End Sample.

(** ** Session state shared by the read loop and the timer chain *)

Module Session.
Import Js.

(** An operand of the string concatenation passed to the terminal: a
    literal, [String(v)] of a value, or [String(a)] of an array. *)
Inductive piece : Type :=
| Lit (s : string)
| Val (v : value)
| Arr (vs : list value).

(** A call on [term]. *)
Inductive term_call : Type :=
| writeln (text : list piece)
| write (text : list piece).

(** The module-level variables the protocol code reads and writes, the
    read loop's local [temp], and the effects on the collaborators:
    [term] holds the terminal calls and [written] the [writer.write]
    calls, oldest first. *)
Record session : Type := mkSession {
  startStreaming : bool;
  chipId : value;
  firmwareIdentifier : value;
  firmwareMajor : value;
  firmwareMinor : value;
  firmwareInternal : value;
  hardwareVersion : value;
  temp : option (list Z);
  term : list term_call;
  written : list (list Z);
  writer_locked : bool
}.

(** The variables as declared ([let startStreaming = false], the
    others unassigned), before any chunk was read, with the writer
    just taken by [getWriter()]. *)
Definition fresh : session :=
  mkSession false undefined undefined undefined undefined undefined undefined
    None [] [] true.

Definition set_startStreaming (b : bool) (s : session) : session :=
  mkSession b (chipId s) (firmwareIdentifier s) (firmwareMajor s)
    (firmwareMinor s) (firmwareInternal s) (hardwareVersion s) (temp s)
    (term s) (written s) (writer_locked s).

Definition set_chipId (v : value) (s : session) : session :=
  mkSession (startStreaming s) v (firmwareIdentifier s) (firmwareMajor s)
    (firmwareMinor s) (firmwareInternal s) (hardwareVersion s) (temp s)
    (term s) (written s) (writer_locked s).

Definition set_firmwareIdentifier (v : value) (s : session) : session :=
  mkSession (startStreaming s) (chipId s) v (firmwareMajor s)
    (firmwareMinor s) (firmwareInternal s) (hardwareVersion s) (temp s)
    (term s) (written s) (writer_locked s).

Definition set_firmwareMajor (v : value) (s : session) : session :=
  mkSession (startStreaming s) (chipId s) (firmwareIdentifier s) v
    (firmwareMinor s) (firmwareInternal s) (hardwareVersion s) (temp s)
    (term s) (written s) (writer_locked s).

Definition set_firmwareMinor (v : value) (s : session) : session :=
  mkSession (startStreaming s) (chipId s) (firmwareIdentifier s)
    (firmwareMajor s) v (firmwareInternal s) (hardwareVersion s) (temp s)
    (term s) (written s) (writer_locked s).

Definition set_firmwareInternal (v : value) (s : session) : session :=
  mkSession (startStreaming s) (chipId s) (firmwareIdentifier s)
    (firmwareMajor s) (firmwareMinor s) v (hardwareVersion s) (temp s)
    (term s) (written s) (writer_locked s).

Definition set_hardwareVersion (v : value) (s : session) : session :=
  mkSession (startStreaming s) (chipId s) (firmwareIdentifier s)
    (firmwareMajor s) (firmwareMinor s) (firmwareInternal s) v (temp s)
    (term s) (written s) (writer_locked s).

Definition set_temp (t : option (list Z)) (s : session) : session :=
  mkSession (startStreaming s) (chipId s) (firmwareIdentifier s)
    (firmwareMajor s) (firmwareMinor s) (firmwareInternal s)
    (hardwareVersion s) t (term s) (written s) (writer_locked s).

Definition set_term (l : list term_call) (s : session) : session :=
  mkSession (startStreaming s) (chipId s) (firmwareIdentifier s)
    (firmwareMajor s) (firmwareMinor s) (firmwareInternal s)
    (hardwareVersion s) (temp s) l (written s) (writer_locked s).

Definition set_written (w : list (list Z)) (s : session) : session :=
  mkSession (startStreaming s) (chipId s) (firmwareIdentifier s)
    (firmwareMajor s) (firmwareMinor s) (firmwareInternal s)
    (hardwareVersion s) (temp s) (term s) w (writer_locked s).

Definition set_writer_locked (b : bool) (s : session) : session :=
  mkSession (startStreaming s) (chipId s) (firmwareIdentifier s)
    (firmwareMajor s) (firmwareMinor s) (firmwareInternal s)
    (hardwareVersion s) (temp s) (term s) (written s) b.

(** [term.writeln(text)] and [term.write(text)]. *)
Definition term_writeln (text : list piece) (s : session) : session :=
  set_term (term s ++ [writeln text]) s.

Definition term_write (text : list piece) (s : session) : session :=
  set_term (term s ++ [write text]) s.

(** [writer.write(bytes)]. *)
Definition writer_write (bytes : list Z) (s : session) : session :=
  set_written (written s ++ [bytes]) s.

(** [writer.releaseLock()]. *)
Definition writer_releaseLock (s : session) : session :=
  set_writer_locked false s.

End Session.

(** ** The chunk handler of the read loop *)

Module Reader.
Import Js Session.

(** The channel types the read loop passes to [ParseData]. *)
Definition dataTypes : list string :=
  ["u24"; "u8"; "i24r"; "i24r"; "u8"; "i24r"; "i24r"].

(** The acknowledgement lines, printed from the chunk itself. *)
Definition ack_notice (value : list Z) (s : session) : session :=
  if eqn (get value 0) 255 && startStreaming s then
    let s := term_writeln [Lit "Ack Received"] s in
    if startStreaming s then term_writeln [Lit "Start Streaming"] s else s
  else s.

(** [dst.set(src, offset)] for [offset + src.length <= dst.length]. *)
Definition typed_set (dst src : list Z) (offset : nat) : list Z :=
  take offset dst ++ src ++ drop (offset + length src) dst.

(** The reassembly step: a chunk that starts with 255 or 0 replaces
    [temp] by a copy of itself; any other chunk is appended to [temp]
    through a new array [temp2].  [temp.length] throws a [TypeError]
    while [temp] is still unassigned. *)
Definition reassemble (value : list Z) (temp : option (list Z))
  : completion (list Z) :=
  if eqn (get value 0) 255 || eqn (get value 0) 0 then
    Normal value
  else
    match temp with
    | None => Throw TypeError
    | Some temp =>
        let temp2 := replicate (length temp + length value) 0 in
        let temp2 := typed_set temp2 temp 0 in
        let temp2 := typed_set temp2 value (length temp) in
        Normal temp2
    end.

(** The streaming-sample branch. *)
Definition decode_sample (t : list Z) (s : session) : session :=
  let parsedData := Sample.ParseData (subarray t 1 (length t)) dataTypes in
  term_writeln [Arr parsedData] s.

(** The body of the loop of the firmware-version branch, entered with
    loop index [i]; every [temp[i++]] reads at [i] and then advances
    it.  Returns the index the body leaves behind and the session. *)
Definition firmware_body (t : list Z) (i : nat) (s : session)
  : nat * session :=
  let lo := band (get t i) 255 in
  let i := (i + 1)%nat in
  let hi := shl (band (get t i) 255) 8 in
  let i := (i + 1)%nat in
  let s := set_firmwareIdentifier (num (lo + hi)) s in
  let lo := band (get t i) 255 in
  let i := (i + 1)%nat in
  let hi := shl (band (get t i) 255) 8 in
  let i := (i + 1)%nat in
  let s := set_firmwareMajor (num (lo + hi)) s in
  let s := set_firmwareMinor (get t i) s in
  let i := (i + 1)%nat in
  let s := set_firmwareInternal (get t i) s in
  let i := (i + 1)%nat in
  let s := term_writeln [Lit "FW VERSION RESPONSE Received"] s in
  let s := term_writeln
             [Lit "Firmware identifier: "; Val (firmwareIdentifier s)] s in
  let s := term_writeln [Lit "Firmware major: "; Val (firmwareMajor s)] s in
  let s := term_writeln [Lit "Firmware minor: "; Val (firmwareMinor s)] s in
  let s := term_writeln
             [Lit "Firmware internal: "; Val (firmwareInternal s)] s in
  (i, s).

(** [for (let i = ...; i < 8; i++) body], where the body itself
    advances [i]. *)
#[local] Opaque firmware_body.

Equations? firmware_loop (t : list Z) (i : nat) (s : session)
  : session by wf (8 - i)%nat lt :=
  firmware_loop t i s with lt_dec i 8 => {
    | left _ :=
        firmware_loop t (fst (firmware_body t i s) + 1)%nat
          (snd (firmware_body t i s));
    | right _ := s }.
Proof.
  with_strategy transparent [firmware_body]
    (unfold firmware_body; cbn [fst]); lia.
Qed.

#[local] Transparent firmware_body.

(** The firmware-version branch: the loop starts at index 2. *)
Definition decode_firmware (t : list Z) (s : session) : session :=
  firmware_loop t 2 s.

(** The hardware-version branch. *)
Definition decode_hardware (t : list Z) (s : session) : session :=
  let s := set_hardwareVersion (get t 2) s in
  term_writeln [Lit "Hardware version: "; Val (hardwareVersion s)] s.

(** The EXG-configuration branch. *)
Definition decode_exg (t : list Z) (s : session) : session :=
  let s := if eqn (chipId s) 1
           then term_writeln [Lit "EXG CHIP 1 CONFIGURATION"] s
           else term_writeln [Lit "EXG CHIP 2 CONFIGURATION"] s in
  let s := for_range 3 (length t - 3)
             (fun i s => term_write [Val (get t i); Lit " "] s) s in
  term_writeln [Lit ""] s.

(** The checks that follow reassembly, on the buffer [t] that [temp]
    now holds. *)
Definition decode (t : list Z) (s : session) : session :=
  let s := if eqn (get t 0) 0 && (length t =? 18)%nat && startStreaming s
           then decode_sample t s
           else s in
  if eqn (get t 1) 47 && (length t =? 8)%nat then decode_firmware t s
  else if eqn (get t 1) 37 && (length t =? 3)%nat then decode_hardware t s
  else if eqn (get t 1) 98 && (length t =? 13)%nat then decode_exg t s
  else s.

(** How the handler of one chunk ends: it runs to its end, or an
    exception leaves it; either way the session is the one its
    assignments built up to that point. *)
Inductive outcome : Type :=
| Done (s : session)
| Aborted (e : exn) (s : session).

(** The handler run on each chunk [value] (the function passed to
    [new Promise]; its [console.log] is not recorded). *)
Definition on_chunk (value : list Z) (s : session) : outcome :=
  let s := ack_notice value s in
  match reassemble value (temp s) with
  | Throw e => Aborted e s
  | Normal t => Done (decode t (set_temp (Some t) s))
  end.

(** One iteration of the read loop on a chunk.  The handler calls
    [resolve()] before anything else, so the awaited promise is already
    fulfilled when an exception leaves the handler, and the loop goes
    on to the next read with the session as the handler left it. *)
Definition read_value (value : list Z) (s : session) : session :=
  match on_chunk value s with
  | Done s' => s'
  | Aborted _ s' => s'
  end.

(** The read loop over the chunks the transport delivers, in order. *)
Definition feed (chunks : list (list Z)) (s : session) : session :=
  fold_left (fun s value => read_value value s) chunks s.

(** Whether a terminal call is the line that announces a decoded
    firmware-version response. *)
Definition is_firmware_announcement (c : term_call) : bool :=
  match c with
  | writeln [Lit l] => (l =? "FW VERSION RESPONSE Received")%string
  | _ => false
  end.

(** Number of firmware-version responses announced on the terminal. *)
Definition firmware_responses (s : session) : nat :=
  length (List.filter is_firmware_announcement (term s)).

End Reader.

(** ** The timer chain registered after the port opens *)

Module Sequencer.
Import Js Session Catalog.

(** The callbacks passed to [setTimeout], in the order of the calls. *)
Inductive step : Type :=
| send_firmware_query
| send_hardware_query
| set_exg_reg1
| set_exg_reg2
| query_exg_reg1
| query_exg_reg2
| enter_streaming
| release_writer.

(** [waitTime += d]: the new value of the variable, which is also the
    value of the expression. *)
Definition add_assign (waitTime d : Z) : Z * Z :=
  (waitTime + d, waitTime + d).

(** The [setTimeout(callback, delay)] calls of [connectToPort], in
    program order, each with the delay it is given.  All of them are
    made right after [port.open] returns, so a delay is the step's
    offset from that moment. *)
Definition connect_timers : list (Z * step) :=
  let waitTime := 200 in
  let '(d1, waitTime) := add_assign waitTime 200 in
  let '(d2, waitTime) := add_assign waitTime 200 in
  let '(d3, waitTime) := add_assign waitTime 200 in
  let '(d4, waitTime) := add_assign waitTime 200 in
  let '(d5, waitTime) := add_assign waitTime 200 in
  let '(d6, waitTime) := add_assign waitTime 200 in
  let '(d7, waitTime) := add_assign waitTime 5000 in
  let '(d8, waitTime) := add_assign waitTime 200 in
  [ (d1, send_firmware_query); (d2, send_hardware_query);
    (d3, set_exg_reg1); (d4, set_exg_reg2);
    (d5, query_exg_reg1); (d6, query_exg_reg2);
    (d7, enter_streaming); (d8, release_writer) ].

(** The steps whose timer expires [offset] milliseconds after the
    timers were set. *)
Definition due (offset : Z) : list step :=
  map snd (List.filter (fun t => fst t =? offset) connect_timers).

(** The guard of the four EXG callbacks:
    [firmwareIdentifier != 3 || hardwareVersion != 3]. *)
Definition not_exg_device (s : session) : bool :=
  neqn (firmwareIdentifier s) 3 || neqn (hardwareVersion s) 3.

(** [for (i = 0; i < cmd.length; i++) writer.write(cmd.subarray(i, i + 1))]. *)
Definition write_bytewise (cmd : list Z) (s : session) : session :=
  for_range 0 (length cmd)
    (fun i s => writer_write (subarray cmd i (i + 1)) s) s.

(** What a callback does to the session when its timer fires. *)
Definition run (c : step) (s : session) : session :=
  match c with
  | send_firmware_query => writer_write GET_FIRMWARE_VERSION_COMMAND s
  | send_hardware_query => writer_write GET_SHIMMER_VERSION_COMMAND s
  | set_exg_reg1 =>
      if not_exg_device s then s
      else
        let s := write_bytewise SET_EXG_REG1_COMMAND s in
        write_bytewise SHIMMER3_DEFAULT_TEST_REG1 s
  | set_exg_reg2 =>
      if not_exg_device s then s
      else
        let s := write_bytewise SET_EXG_REG2_COMMAND s in
        write_bytewise SHIMMER3_DEFAULT_TEST_REG2 s
  | query_exg_reg1 =>
      if not_exg_device s then s
      else
        let s := set_chipId (num 1) s in
        writer_write GET_EXG_REG1_COMMAND s
  | query_exg_reg2 =>
      if not_exg_device s then s
      else
        let s := set_chipId (num 2) s in
        let s := writer_write GET_EXG_REG2_COMMAND s in
        term_writeln [Lit "start streaming after 5 seconds"] s
  | enter_streaming =>
      let s := set_startStreaming true s in
      writer_write START_STREAMING_COMMAND s
  | release_writer => writer_releaseLock s
  end.

End Sequencer.

(** ** The specification's vocabulary

    Definitions that follow the wording of the specification, to be
    compared with the code above. *)

Module Spec.
Import Js Session.

(** An element of a [Uint8Array]. *)
Definition is_byte (b : Z) : Prop := 0 <= b < 256.

(** *** Sample decoder (section 4.4) *)

Inductive FieldType : Type :=
| u8
| u24
| i24r.

(** Bytes a descriptor entry consumes. *)
Definition width (ty : FieldType) : nat :=
  match ty with
  | u8 => 1
  | u24 => 3
  | i24r => 3
  end.

(** The name the caller passes for a field type. *)
Definition type_name (ty : FieldType) : string :=
  match ty with
  | u8 => "u8"
  | u24 => "u24"
  | i24r => "i24r"
  end.

Definition sum_widths (descriptor : list FieldType) : nat :=
  foldr (fun ty n => (width ty + n)%nat) 0%nat descriptor.

(** [decodeSample] as section 4.4 words it: the payload is consumed
    left to right, one entry at a time; [None] stands for
    [TruncatedPayload]. *)
Fixpoint decodeSample (payload : list Z) (descriptor : list FieldType)
  {struct descriptor} : option (list Z) :=
  match descriptor with
  | [] => Some []
  | u8 :: rest =>
      match payload with
      | b0 :: payload => option_map (cons b0) (decodeSample payload rest)
      | _ => None
      end
  | u24 :: rest =>
      match payload with
      | b0 :: b1 :: b2 :: payload =>
          option_map
            (cons (Z.lor b0 (Z.lor (Z.shiftl b1 8) (Z.shiftl b2 16))))
            (decodeSample payload rest)
      | _ => None
      end
  | i24r :: rest =>
      match payload with
      | b0 :: b1 :: b2 :: payload =>
          option_map
            (cons (Z.lor (Z.shiftl b0 16) (Z.lor (Z.shiftl b1 8) b2)))
            (decodeSample payload rest)
      | _ => None
      end
  end.

(** The byte at index [i], 0 beyond the end. *)
Definition byte_or_zero (payload : list Z) (i : nat) : Z :=
  default 0 (payload !! i).

(** The value of a field of type [ty] that starts at index [o], bytes
    beyond the end of the payload included. *)
Definition field_at (payload : list Z) (o : nat) (ty : FieldType) : value :=
  match ty with
  | u8 => get payload o
  | u24 =>
      num (byte_or_zero payload o
           + 2 ^ 8 * byte_or_zero payload (o + 1)
           + 2 ^ 16 * byte_or_zero payload (o + 2))
  | i24r =>
      num (2 ^ 16 * byte_or_zero payload o
           + 2 ^ 8 * byte_or_zero payload (o + 1)
           + byte_or_zero payload (o + 2))
  end.

(** The fields of a descriptor laid out from index [o] on. *)
Fixpoint fields_from (payload : list Z) (o : nat)
  (descriptor : list FieldType) : list value :=
  match descriptor with
  | [] => []
  | ty :: rest =>
      field_at payload o ty :: fields_from payload (o + width ty) rest
  end.

(** Index at which entry [k] of the descriptor starts. *)
Definition offset (descriptor : list FieldType) (k : nat) : nat :=
  sum_widths (take k descriptor).

(** *** Command encoder (section 4.1) *)

(** The inputs section 4.1 calls malformed. *)
Definition malformed_hex (hexDigits : list Z) : Prop :=
  hexDigits = [] \/ Nat.Odd (length hexDigits)
  \/ Exists (fun c => is_hex c = false) hexDigits.

(** *** Frame kinds (section 3) *)

Inductive FrameKind : Type :=
| StreamingSample
| FirmwareVersion
| HardwareVersion
| ExgConfig.

(** A row of the frame-kind table: the kind, the index of the
    discriminator byte, its value, and the required length. *)
Definition frame_table : list (FrameKind * nat * Z * nat) :=
  [ (StreamingSample, 0%nat, 0, 18%nat);
    (FirmwareVersion, 1%nat, 47, 8%nat);
    (HardwareVersion, 1%nat, 37, 3%nat);
    (ExgConfig, 1%nat, 98, 13%nat) ].

Definition row_matches (buffer : list Z) (row : FrameKind * nat * Z * nat)
  : bool :=
  let '(_, index, discriminator, len) := row in
  eqn (get buffer index) discriminator && (length buffer =? len)%nat.

(** The kinds whose row the buffer matches. *)
Definition table_kinds (buffer : list Z) : list FrameKind :=
  map (fun row => fst (fst (fst row)))
    (List.filter (row_matches buffer) frame_table).

(** The same, with the streaming-sample row open only while the
    streaming flag is set. *)
Definition open_kinds (streaming : bool) (buffer : list Z) : list FrameKind :=
  List.filter
    (fun k => match k with StreamingSample => streaming | _ => true end)
    (table_kinds buffer).

(** The decoder of each kind. *)
Definition decoder (k : FrameKind) (t : list Z) (s : session) : session :=
  match k with
  | StreamingSample => Reader.decode_sample t s
  | FirmwareVersion => Reader.decode_firmware t s
  | HardwareVersion => Reader.decode_hardware t s
  | ExgConfig => Reader.decode_exg t s
  end.

(** Handing the buffer to the decoders of the given kinds, in order. *)
Definition hand_over (kinds : list FrameKind) (t : list Z) (s : session)
  : session :=
  fold_left (fun s k => decoder k t s) kinds s.

(** The register bytes an EXG dump shows on the terminal. *)
Definition dumped (calls : list term_call) : list value :=
  flat_map
    (fun c => match c with
              | write [Val v; Lit " "] => [v]
              | _ => []
              end)
    calls.

(** *** Connection sequencer (section 4.5) *)

(** The identity the EXG steps require. *)
Definition exg_identity (s : session) : bool :=
  eqn (firmwareIdentifier s) 3 && eqn (hardwareVersion s) 3.

(** One [write] per byte. *)
Definition one_byte_at_a_time (bytes : list Z) (s : session) : session :=
  set_written (written s ++ map (fun b => [b]) bytes) s.

(** What section 4.5 says each step does, with the opcodes and the
    default test payload of section 6 (the terminal line of the second
    query is the code's own). *)
Definition step_effect (c : Sequencer.step) (s : session) : session :=
  match c with
  | Sequencer.send_firmware_query => writer_write [0x2E] s
  | Sequencer.send_hardware_query => writer_write [0x3F] s
  | Sequencer.set_exg_reg1 =>
      if exg_identity s then
        one_byte_at_a_time
          ([0x61; 0x00; 0x00; 0x0A]
           ++ [0x00; 0xA3; 0x10; 0x45; 0x45; 0x00; 0x00; 0x00; 0x02; 0x01]) s
      else s
  | Sequencer.set_exg_reg2 =>
      if exg_identity s then
        one_byte_at_a_time
          ([0x61; 0x00; 0x01; 0x0A]
           ++ [0x00; 0xA3; 0x10; 0x45; 0x45; 0x00; 0x00; 0x00; 0x02; 0x01]) s
      else s
  | Sequencer.query_exg_reg1 =>
      if exg_identity s then
        writer_write [0x63; 0x00; 0x00; 0x0A] (set_chipId (num 1) s)
      else s
  | Sequencer.query_exg_reg2 =>
      if exg_identity s then
        term_writeln [Lit "start streaming after 5 seconds"]
          (writer_write [0x63; 0x01; 0x00; 0x0A] (set_chipId (num 2) s))
      else s
  | Sequencer.enter_streaming =>
      writer_write [0x07] (set_startStreaming true s)
  | Sequencer.release_writer => set_writer_locked false s
  end.

(** The steps section 4.5 makes conditional on the identity. *)
Definition conditional (c : Sequencer.step) : bool :=
  match c with
  | Sequencer.set_exg_reg1 | Sequencer.set_exg_reg2
  | Sequencer.query_exg_reg1 | Sequencer.query_exg_reg2 => true
  | _ => false
  end.

End Spec.

(** ** The timer queue *)

Module Timeline.
Import Js Session Sequencer.




End Timeline.

(** ** Hex spelling of bytes *)

Module Hex.

(** The code unit of the upper-case hex digit of value [d]. *)
Definition hex_char (d : Z) : Z := if d <? 10 then 48 + d else 55 + d.

(** The string a user types for a byte sequence: two upper-case hex
    digits per byte. *)
Definition hex_spelling (bytes : list Z) : list Z :=
  flat_map (fun b => [hex_char (b / 16); hex_char (b mod 16)]) bytes.

End Hex.

(** ** Channel type names *)

Module Descriptor.

(** The type names [ParseData] has a branch for. *)
Definition known_type (name : string) : bool :=
  (name =? "u8")%string || (name =? "u24")%string || (name =? "i24r")%string.

End Descriptor.

(** ** The port selection dropdown *)

Module Ports.

(** An [<option>] of the dropdown: what [option.value] returns (the
    value attribute, or the text when there is none), its text, and the
    [SerialPort] it references, if any.  Ports are objects compared by
    identity; a number stands for each. *)
Record PortOption : Type := mkOption {
  option_value : string;
  textContent : string;
  port : option nat
}.

(** [portSelector.options] and the module-level [portCounter]. *)
Record selector : Type := mkSelector {
  options : list PortOption;
  portCounter : nat
}.

(** The dropdown before any port is added: [let portCounter = 1]. *)
Definition initial (opts : list PortOption) : selector := mkSelector opts 1.

(** [String(n)] for a counter value. *)
Definition decimal (n : nat) : string :=
  NilEmpty.string_of_uint (Nat.to_uint n).

(** [portOption.port === port]. *)
Definition references (o : PortOption) (p : nat) : bool :=
  match port o with
  | Some q => (q =? p)%nat
  | None => false
  end.

(** The loop of [findPortOption] from index [i] on; the result is the
    index of the option returned, [None] for [null]. *)
Fixpoint find_from (opts : list PortOption) (i : nat) (p : nat)
  : option nat :=
  match opts with
  | [] => None
  | o :: rest =>
      if (option_value o =? "prompt")%string then find_from rest (S i) p
      else if references o p then Some i
      else find_from rest (S i) p
  end.

(** [findPortOption]. *)
Definition findPortOption (sel : selector) (p : nat) : option nat :=
  find_from (options sel) 0 p.

(** [addNewPort]: the new option has no value attribute, so its value
    is its text. *)
Definition addNewPort (p : nat) (sel : selector) : nat * selector :=
  let label := ("Port " ++ decimal (portCounter sel))%string in
  let portOption := mkOption label label (Some p) in
  (length (options sel),
   mkSelector (options sel ++ [portOption]) (S (portCounter sel))).

(** [maybeAddNewPort]. *)
Definition maybeAddNewPort (p : nat) (sel : selector) : nat * selector :=
  match findPortOption sel p with
  | Some i => (i, sel)
  | None => addNewPort p sel
  end.

(** The handler of the [disconnect] event of [navigator.serial]. *)
Definition on_disconnect (p : nat) (sel : selector) : selector :=
  match findPortOption sel p with
  | Some i => mkSelector (delete i (options sel)) (portCounter sel)
  | None => sel
  end.

(** The ports that [findPortOption] can return an option for. *)
Definition listed_ports (opts : list PortOption) : list nat :=
  flat_map
    (fun o =>
       if (option_value o =? "prompt")%string then []
       else match port o with Some q => [q] | None => [] end)
    opts.

(** Every option that references a port was labelled by [addNewPort]
    with a counter value below [n]. *)
Definition labelled_below (n : nat) (opts : list PortOption) : Prop :=
  Forall
    (fun o =>
       port o = None
       \/ exists k, (k < n)%nat /\ textContent o = ("Port " ++ decimal k)%string)
    opts.

End Ports.

(** ** Writing to the port from the terminal and the Write button *)

Module Console.
Import Js Session.

(** What the two handlers read besides the session: whether
    [port?.writable] is there, the pending line [toFlush], and the two
    checkboxes. *)
Record console : Type := mkConsole {
  sess : session;
  writable : bool;
  toFlush : string;
  echo : bool;
  flushOnEnter : bool
}.

Definition set_sess (s : session) (c : console) : console :=
  mkConsole s (writable c) (toFlush c) (echo c) (flushOnEnter c).

Definition set_toFlush (l : string) (c : console) : console :=
  mkConsole (sess c) (writable c) l (echo c) (flushOnEnter c).

(** How a handler ends. *)
Inductive result : Type :=
| Done (c : console)
| Aborted (e : exn) (c : console).

(** The string ["\r"]. *)
Definition carriage_return : string := String (ascii_of_nat 13) EmptyString.

Section Handlers.

(** [encoder.encode]: the UTF-8 bytes of a string. *)
Variable encode : string -> list Z.

(** The handler of [term.onData].  [getWriter()] throws a [TypeError]
    while another writer holds the stream's lock; the handler's own
    writer takes the lock and gives it back ([releaseLock] on a writer
    that has released already does nothing). *)
Definition onData (data : string) (c : console) : result :=
  let c := if echo c then set_sess (term_write [Lit data] (sess c)) c
           else c in
  if negb (writable c) then Done c
  else if writer_locked (sess c) then Aborted TypeError c
  else
    let c := set_sess (set_writer_locked true (sess c)) c in
    let c :=
      if flushOnEnter c then
        let c := set_toFlush (toFlush c ++ data)%string c in
        if (data =? carriage_return)%string then
          let c := set_sess (writer_write (encode (toFlush c)) (sess c)) c in
          let c := set_sess (writer_releaseLock (sess c)) c in
          set_toFlush EmptyString c
        else c
      else set_sess (writer_write (encode data) (sess c)) c in
    Done (set_sess (writer_releaseLock (sess c)) c).

(** The terminal's data events, one after the other; an event whose
    handler throws leaves the console as the handler left it. *)
Definition typed (events : list string) (c : console) : console :=
  fold_left
    (fun c data =>
       match onData data c with
       | Done c' => c'
       | Aborted _ c' => c'
       end)
    events c.

End Handlers.

(** The click handler of the Write button, on the text of the input
    field.  The encoder returns an array or throws, so the handler's
    [byteArray == null] test never holds. *)
Definition onWriteClick (input : list Z) (c : console) : result :=
  match Catalog.ConvertHexStringToByteArray input with
  | Throw e => Aborted e c
  | Normal byteArray =>
      if negb (writable c) then Done c
      else if writer_locked (sess c) then Aborted TypeError c
      else
        let c := set_sess (set_writer_locked true (sess c)) c in
        let c := set_sess (writer_write byteArray (sess c)) c in
        Done (set_sess (writer_releaseLock (sess c)) c)
  end.

End Console.

(** ** What a piece of code leaves alone *)

Module Footprint.
Import Js Session.

(** The variables of the writing side: the streaming flag, the chip
    selector, the writes made and the writer's lock. *)
Definition port_side_kept (s s' : session) : Prop :=
  startStreaming s' = startStreaming s
  /\ chipId s' = chipId s
  /\ written s' = written s
  /\ writer_locked s' = writer_locked s.

(** The variables of the reading side: the identity fields and the
    assembly buffer. *)
Definition read_side_kept (s s' : session) : Prop :=
  firmwareIdentifier s' = firmwareIdentifier s
  /\ firmwareMajor s' = firmwareMajor s
  /\ firmwareMinor s' = firmwareMinor s
  /\ firmwareInternal s' = firmwareInternal s
  /\ hardwareVersion s' = hardwareVersion s
  /\ temp s' = temp s.

End Footprint.

(** * Properties *)

Import Js Session Catalog Sample Reader Sequencer.

(** Evaluation of the session updates, innermost first (unfolding the
    setters outermost first would copy the session once per field). *)
Ltac session_steps :=
  cbv [term_writeln term_write writer_write writer_releaseLock
       set_startStreaming set_chipId set_firmwareIdentifier set_firmwareMajor
       set_firmwareMinor set_firmwareInternal set_hardwareVersion set_temp
       set_term set_written set_writer_locked
       startStreaming chipId firmwareIdentifier firmwareMajor firmwareMinor
       firmwareInternal hardwareVersion temp term written writer_locked].

(** ** Arithmetic of the operators on bytes *)

Lemma wrap32_small (n : Z) : - 2 ^ 31 <= n < 2 ^ 31 -> wrap32 n = n.
Proof.
  intros Hn. unfold wrap32. rewrite Z.mod_small; lia.
Qed.

Lemma band_byte (b : Z) : Spec.is_byte b -> band (num b) 255 = b.
Proof.
  intros Hb. unfold Spec.is_byte in Hb. unfold band, ToInt32.
  rewrite !wrap32_small by lia.
  change 255 with (Z.ones 8). rewrite Z.land_ones by lia.
  apply Z.mod_small. lia.
Qed.

Lemma shl_byte_8 (b : Z) : Spec.is_byte b -> shl b 8 = 2 ^ 8 * b.
Proof.
  intros Hb. unfold Spec.is_byte in Hb. unfold shl.
  change (8 mod 32) with 8.
  rewrite (wrap32_small b) by lia.
  rewrite Z.shiftl_mul_pow2 by lia.
  rewrite wrap32_small; lia.
Qed.

Lemma shl_byte_16 (b : Z) : Spec.is_byte b -> shl b 16 = 2 ^ 16 * b.
Proof.
  intros Hb. unfold Spec.is_byte in Hb. unfold shl.
  change (16 mod 32) with 16.
  rewrite (wrap32_small b) by lia.
  rewrite Z.shiftl_mul_pow2 by lia.
  rewrite wrap32_small; lia.
Qed.

Lemma land_low_shiftl (lo hi k : Z) :
  0 <= k -> 0 <= lo < 2 ^ k -> Z.land lo (Z.shiftl hi k) = 0.
Proof.
  intros Hk Hlo. apply Z.bits_inj'. intros n Hn.
  rewrite Z.land_spec, Z.bits_0.
  destruct (Z.lt_ge_cases n k) as [Hlt | Hge].
  - rewrite Z.shiftl_spec_low by lia. apply andb_false_r.
  - rewrite <- (Z.mod_small lo (2 ^ k)) by lia.
    rewrite Z.mod_pow2_bits_high by lia. reflexivity.
Qed.

Lemma lor_low_shiftl (lo hi k : Z) :
  0 <= k -> 0 <= lo < 2 ^ k -> Z.lor lo (Z.shiftl hi k) = lo + 2 ^ k * hi.
Proof.
  intros Hk Hlo.
  rewrite <- Z.lxor_lor by (apply land_low_shiftl; lia).
  rewrite <- Z.add_nocarry_lxor by (apply land_low_shiftl; lia).
  rewrite Z.shiftl_mul_pow2 by lia. lia.
Qed.

(** Little-endian assembly of three bytes with [|] is their weighted sum. *)
Lemma lor_little_endian (b0 b1 b2 : Z) :
  Spec.is_byte b0 -> Spec.is_byte b1 -> Spec.is_byte b2 ->
  Z.lor b0 (Z.lor (Z.shiftl b1 8) (Z.shiftl b2 16))
  = b0 + 2 ^ 8 * b1 + 2 ^ 16 * b2.
Proof.
  unfold Spec.is_byte. intros H0 H1 H2.
  replace (Z.shiftl b2 16) with (Z.shiftl (Z.shiftl b2 8) 8)
    by (rewrite Z.shiftl_shiftl by lia; reflexivity).
  rewrite <- Z.shiftl_lor.
  rewrite lor_low_shiftl by lia.
  rewrite lor_low_shiftl by lia. lia.
Qed.

(** Big-endian assembly of three bytes with [|] is their weighted sum. *)
Lemma lor_big_endian (b0 b1 b2 : Z) :
  Spec.is_byte b0 -> Spec.is_byte b1 -> Spec.is_byte b2 ->
  Z.lor (Z.shiftl b0 16) (Z.lor (Z.shiftl b1 8) b2)
  = 2 ^ 16 * b0 + 2 ^ 8 * b1 + b2.
Proof.
  intros H0 H1 H2.
  rewrite (Z.lor_comm (Z.shiftl b1 8) b2), Z.lor_comm, <- Z.lor_assoc.
  rewrite lor_little_endian by assumption. lia.
Qed.

Lemma eqn_true (v : value) (n : Z) : eqn v n = true <-> v = num n.
Proof.
  destruct v as [|m]; simpl.
  - split; discriminate.
  - rewrite Z.eqb_eq. split; [intros ->; reflexivity | intros [= ->]; reflexivity].
Qed.


(** ** Connection sequencer *)

(** C1, as stated, fails: no timer is set for 200 ms (nor for 6200 ms);
    the firmware query is the step due at 400 ms, and streaming starts
    at 6400 ms. *)
Lemma connect_offsets_counterexample :
  due 200 = [] /\ due 400 = [send_firmware_query]
  /\ due 6200 = [] /\ due 6400 = [enter_streaming].
Proof. repeat split; reflexivity. Qed.

(** C1, amended: [waitTime] starts at 200 and is advanced before each
    use, so the eight steps are due 400, 600, 800, 1000, 1200, 1400,
    6400 and 6600 ms after the timers are set; the firmware query
    writes 2E, the hardware query 3F, the streaming step sets the flag
    and writes 07, and the last step releases the writer. *)
Theorem connect_offsets (s : session) :
  connect_timers
  = [ (400, send_firmware_query); (600, send_hardware_query);
      (800, set_exg_reg1); (1000, set_exg_reg2);
      (1200, query_exg_reg1); (1400, query_exg_reg2);
      (6400, enter_streaming); (6600, release_writer) ]
  /\ run send_firmware_query s = writer_write [0x2E] s
  /\ run send_hardware_query s = writer_write [0x3F] s
  /\ run enter_streaming s = writer_write [0x07] (set_startStreaming true s)
  /\ startStreaming (run enter_streaming s) = true
  /\ writer_locked (run release_writer s) = false.
Proof. repeat split; reflexivity. Qed.

Lemma not_exg_device_identity (s : session) :
  not_exg_device s = negb (Spec.exg_identity s).
Proof.
  unfold not_exg_device, Spec.exg_identity, neqn.
  rewrite negb_andb. reflexivity.
Qed.

Lemma subarray_one (cmd : list Z) (i : nat) (x : Z) :
  cmd !! i = Some x -> subarray cmd i (i + 1) = [x].
Proof.
  intros Hx. unfold subarray.
  replace (i + 1 - i)%nat with 1%nat by lia.
  rewrite (drop_S _ _ _ Hx). reflexivity.
Qed.

Lemma one_byte_at_a_time_nil (s : session) : Spec.one_byte_at_a_time [] s = s.
Proof.
  destruct s. unfold Spec.one_byte_at_a_time, set_written; simpl.
  rewrite app_nil_r. reflexivity.
Qed.

Lemma one_byte_at_a_time_cons (x : Z) (l : list Z) (s : session) :
  Spec.one_byte_at_a_time (x :: l) s
  = Spec.one_byte_at_a_time l (writer_write [x] s).
Proof.
  destruct s. unfold Spec.one_byte_at_a_time, writer_write, set_written; simpl.
  rewrite <- app_assoc. reflexivity.
Qed.

Lemma one_byte_at_a_time_app (l1 l2 : list Z) (s : session) :
  Spec.one_byte_at_a_time l2 (Spec.one_byte_at_a_time l1 s)
  = Spec.one_byte_at_a_time (l1 ++ l2) s.
Proof.
  destruct s. unfold Spec.one_byte_at_a_time, set_written; simpl.
  rewrite map_app, app_assoc. reflexivity.
Qed.

(** The per-byte loop from index [a] writes the bytes from [a] on,
    each in a write of its own. *)
Lemma write_loop_from (cmd : list Z) (n a : nat) (s : session) :
  (a + n = length cmd)%nat ->
  for_range a n (fun i s => writer_write (subarray cmd i (i + 1)) s) s
  = Spec.one_byte_at_a_time (drop a cmd) s.
Proof.
  revert a s. induction n as [| n IH]; intros a s Hlen.
  - rewrite drop_ge by lia. rewrite one_byte_at_a_time_nil. reflexivity.
  - destruct (lookup_lt_is_Some_2 cmd a) as [x Hx]; [lia |].
    rewrite (drop_S _ _ _ Hx), one_byte_at_a_time_cons.
    unfold for_range. cbn [seq fold_left].
    rewrite (subarray_one _ _ _ Hx).
    apply (IH (S a)). lia.
Qed.

Lemma write_bytewise_each (cmd : list Z) (s : session) :
  write_bytewise cmd s = Spec.one_byte_at_a_time cmd s.
Proof. unfold write_bytewise. apply write_loop_from. reflexivity. Qed.

(** The catalog constants, as built by the hex encoder. *)
Lemma catalog_bytes :
  GET_FIRMWARE_VERSION_COMMAND = [0x2E]
  /\ GET_SHIMMER_VERSION_COMMAND = [0x3F]
  /\ START_STREAMING_COMMAND = [0x07]
  /\ STOP_STREAMING_COMMAND = [0x20]
  /\ GET_EXG_REG1_COMMAND = [0x63; 0x00; 0x00; 0x0A]
  /\ GET_EXG_REG2_COMMAND = [0x63; 0x01; 0x00; 0x0A]
  /\ SET_EXG_REG1_COMMAND = [0x61; 0x00; 0x00; 0x0A]
  /\ SET_EXG_REG2_COMMAND = [0x61; 0x00; 0x01; 0x0A].
Proof. vm_compute. repeat split; reflexivity. Qed.

Lemma run_step_effect (c : step) (s : session) :
  run c s = Spec.step_effect c s.
Proof.
  destruct catalog_bytes as (Efw & Ehw & Estart & _ & Eq1 & Eq2 & Es1 & Es2).
  destruct c; cbn [run Spec.step_effect];
    rewrite ?Efw, ?Ehw, ?Estart, ?Eq1, ?Eq2, ?Es1, ?Es2; try reflexivity;
    rewrite not_exg_device_identity;
    destruct (Spec.exg_identity s); cbn [negb]; try reflexivity.
  - unfold SHIMMER3_DEFAULT_TEST_REG1.
    rewrite !write_bytewise_each. apply one_byte_at_a_time_app.
  - unfold SHIMMER3_DEFAULT_TEST_REG2.
    rewrite !write_bytewise_each. apply one_byte_at_a_time_app.
Qed.

Lemma written_grows_ne (s s' : session) :
  (length (written s) < length (written s'))%nat -> s' <> s.
Proof. intros Hlt ->. lia. Qed.

(** C2: the four EXG steps act exactly when, as their timer fires, the
    firmware identifier and the hardware version are both 3: then they
    write the register commands byte by byte, or select the chip and
    write the query; for any other identity they leave the session as
    it is.  The other four steps act whatever the identity. *)
Theorem exg_steps_gated (c : step) (s : session) :
  (Spec.exg_identity s = true
   <-> firmwareIdentifier s = num 3 /\ hardwareVersion s = num 3)
  /\ run c s = Spec.step_effect c s
  /\ (Spec.conditional c = true ->
      (Spec.exg_identity s = true -> run c s <> s)
      /\ (Spec.exg_identity s = false -> run c s = s))
  /\ (Spec.conditional c = false ->
      forall id hw : value,
        run c (set_firmwareIdentifier id (set_hardwareVersion hw s))
        = set_firmwareIdentifier id (set_hardwareVersion hw (run c s))).
Proof.
  split; [| split; [| split]].
  - unfold Spec.exg_identity. rewrite andb_true_iff, !eqn_true. reflexivity.
  - apply run_step_effect.
  - intros Hc. rewrite run_step_effect. split; intros Hid.
    + apply written_grows_ne.
      destruct c; try discriminate Hc; simpl; rewrite Hid; simpl;
        rewrite ?length_app; simpl; lia.
    + destruct c; try discriminate Hc; simpl; rewrite Hid; reflexivity.
  - intros Hc id hw. destruct c; try discriminate Hc; destruct s; reflexivity.
Qed.

(** The gate at a session whose identity is 1/3: the register-1 step
    is skipped. *)
Lemma exg_steps_gated_witness :
  run set_exg_reg1
    (set_hardwareVersion (num 3) (set_firmwareIdentifier (num 1) fresh))
  = set_hardwareVersion (num 3) (set_firmwareIdentifier (num 1) fresh).
Proof.
  exact (proj2 (proj1 (proj2 (proj2
           (exg_steps_gated set_exg_reg1
              (set_hardwareVersion (num 3)
                 (set_firmwareIdentifier (num 1) fresh))))) eq_refl) eq_refl).
Defined.

(** ** Reassembly *)

Lemma typed_set_append (t value : list Z) :
  typed_set (typed_set (replicate (length t + length value) 0) t 0)
    value (length t)
  = t ++ value.
Proof.
  assert (E1 : typed_set (replicate (length t + length value) 0) t 0
               = t ++ replicate (length value) 0).
  { unfold typed_set. cbn [take app Nat.add].
    rewrite drop_replicate.
    replace (length t + length value - length t)%nat with (length value)
      by lia.
    reflexivity. }
  rewrite E1. unfold typed_set.
  rewrite take_app_length.
  rewrite drop_ge by (rewrite length_app, length_replicate; lia).
  rewrite app_nil_r. reflexivity.
Qed.

Lemma reassemble_append (value t : list Z) :
  eqn (get value 0) 255 = false -> eqn (get value 0) 0 = false ->
  reassemble value (Some t) = Normal (t ++ value).
Proof.
  intros H255 H0. unfold reassemble. rewrite H255, H0. simpl.
  rewrite typed_set_append. reflexivity.
Qed.

Lemma reassemble_marker (value : list Z) (t : option (list Z)) :
  eqn (get value 0) 255 = true \/ eqn (get value 0) 0 = true ->
  reassemble value t = Normal value.
Proof.
  intros H. unfold reassemble.
  destruct H as [-> | ->]; [reflexivity | rewrite orb_true_r; reflexivity].
Qed.

(** C10, as stated, fails: the error of the append step is not
    reported.  A firmware-version frame that arrives without marker as
    the first chunk of a connection makes the handler throw, but the
    read loop's iteration ends normally: the session is unchanged, the
    terminal shows nothing, and the chunks that follow are handled as
    if this one had never arrived - the chunk is dropped silently. *)
Lemma first_chunk_without_marker_counterexample :
  on_chunk [1; 47; 3; 0; 0; 0; 11; 0] fresh = Aborted TypeError fresh
  /\ read_value [1; 47; 3; 0; 0; 0; 11; 0] fresh = fresh
  /\ term (read_value [1; 47; 3; 0; 0; 0; 11; 0] fresh) = []
  /\ feed [[1; 47; 3; 0; 0; 0; 11; 0]; [255; 37; 3]] fresh
     = feed [[255; 37; 3]] fresh.
Proof. repeat split; reflexivity. Qed.

(** C10, amended: while [temp] has not been created, a chunk whose
    first byte is neither 0 nor 255 makes the append step throw a
    [TypeError], which ends the handler with the session untouched:
    the chunk is neither accumulated nor decoded.  The error is not
    reported: the handler has resolved its promise before, so the
    iteration of the read loop ends normally with the session as it
    was, and the loop goes on with the next chunks as if this one had
    not arrived. *)
Theorem first_chunk_without_marker (b : Z) (rest : list Z) (s : session) :
  temp s = None -> b <> 0 -> b <> 255 ->
  reassemble (b :: rest) (temp s) = Throw TypeError
  /\ on_chunk (b :: rest) s = Aborted TypeError s
  /\ read_value (b :: rest) s = s
  /\ forall chunks : list (list Z),
       feed ((b :: rest) :: chunks) s = feed chunks s.
Proof.
  intros Htemp H0 H255.
  assert (E255 : eqn (get (b :: rest) 0) 255 = false)
    by (simpl; apply Z.eqb_neq; exact H255).
  assert (E0 : eqn (get (b :: rest) 0) 0 = false)
    by (simpl; apply Z.eqb_neq; exact H0).
  assert (R : reassemble (b :: rest) (temp s) = Throw TypeError)
    by (unfold reassemble; rewrite E255, E0, Htemp; reflexivity).
  assert (H : on_chunk (b :: rest) s = Aborted TypeError s).
  { unfold on_chunk, ack_notice. rewrite E255. simpl.
    rewrite R. reflexivity. }
  assert (V : read_value (b :: rest) s = s)
    by (unfold read_value; rewrite H; reflexivity).
  split; [exact R | split; [exact H | split; [exact V |]]].
  intros chunks. unfold feed. cbn [fold_left]. rewrite V. reflexivity.
Qed.

(** The first chunk of a connection starting with 0x2F, followed by an
    acknowledgement. *)
Lemma first_chunk_without_marker_witness :
  reassemble [47; 3; 0] (temp fresh) = Throw TypeError
  /\ on_chunk [47; 3; 0] fresh = Aborted TypeError fresh
  /\ read_value [47; 3; 0] fresh = fresh
  /\ feed [[47; 3; 0]; [255]] fresh = feed [[255]] fresh.
Proof.
  destruct (first_chunk_without_marker 47 [3; 0] fresh)
    as (R & H & V & F); [reflexivity | lia | lia |].
  exact (conj R (conj H (conj V (F [[255]])))).
Defined.

(** ** Frame decoders *)

Lemma firmware_body_index (t : list Z) (i : nat) (s : session) :
  fst (firmware_body t i s) = (i + 6)%nat.
Proof. unfold firmware_body. cbn [fst]. lia. Qed.

(** The loop entered at index 2 runs its body once: the body leaves
    the index at 8, the header advances it to 9, and the test fails. *)
Lemma firmware_loop_once (t : list Z) (s : session) :
  firmware_loop t 2 s = snd (firmware_body t 2 s).
Proof.
  rewrite firmware_loop_equation_1.
  destruct (lt_dec 2 8) as [Hlt | Hge]; [| lia].
  cbn [firmware_loop_unfold_clause_1].
  rewrite firmware_loop_equation_1, firmware_body_index.
  destruct (lt_dec (2 + 6 + 1) 8) as [Hlt' | Hge]; [lia |].
  reflexivity.
Qed.

(** C8: decoding an 8-byte firmware-version frame writes each identity
    field once, from fixed offsets: identifier = b2 | (b3 << 8),
    major = b4 | (b5 << 8), minor = b6, internal = b7; the loop body
    runs one time, so the response is announced once. *)
Theorem firmware_fields (b0 b1 b2 b3 b4 b5 b6 b7 : Z) (s : session) :
  Spec.is_byte b2 -> Spec.is_byte b3 -> Spec.is_byte b4 -> Spec.is_byte b5 ->
  decode_firmware [b0; b1; b2; b3; b4; b5; b6; b7] s
  = snd (firmware_body [b0; b1; b2; b3; b4; b5; b6; b7] 2 s)
  /\ decode_firmware [b0; b1; b2; b3; b4; b5; b6; b7] s
  = set_term
      (term s ++
         [ writeln [Lit "FW VERSION RESPONSE Received"];
           writeln [Lit "Firmware identifier: ";
                    Val (num (Z.lor b2 (Z.shiftl b3 8)))];
           writeln [Lit "Firmware major: ";
                    Val (num (Z.lor b4 (Z.shiftl b5 8)))];
           writeln [Lit "Firmware minor: "; Val (num b6)];
           writeln [Lit "Firmware internal: "; Val (num b7)] ])
      (set_firmwareInternal (num b7)
         (set_firmwareMinor (num b6)
            (set_firmwareMajor (num (Z.lor b4 (Z.shiftl b5 8)))
               (set_firmwareIdentifier (num (Z.lor b2 (Z.shiftl b3 8))) s)))).
Proof.
  intros H2 H3 H4 H5.
  unfold decode_firmware. rewrite firmware_loop_once.
  split; [reflexivity |].
  rewrite !lor_low_shiftl by (unfold Spec.is_byte in *; lia).
  destruct s. unfold firmware_body.
  cbn -[band shl get Z.add Z.mul Z.pow].
  change (get [b0; b1; b2; b3; b4; b5; b6; b7] 2) with (num b2).
  change (get [b0; b1; b2; b3; b4; b5; b6; b7] 3) with (num b3).
  change (get [b0; b1; b2; b3; b4; b5; b6; b7] 4) with (num b4).
  change (get [b0; b1; b2; b3; b4; b5; b6; b7] 5) with (num b5).
  change (get [b0; b1; b2; b3; b4; b5; b6; b7] 6) with (num b6).
  change (get [b0; b1; b2; b3; b4; b5; b6; b7] 7) with (num b7).
  rewrite !band_byte, !shl_byte_8 by assumption.
  session_steps.
  repeat rewrite <- app_assoc. reflexivity.
Qed.

(** The frame FF 2F 03 00 00 00 0B 00 decoded in a fresh session. *)
Lemma firmware_fields_witness :
  decode_firmware [255; 47; 3; 0; 0; 0; 11; 0] fresh
  = set_term
      [ writeln [Lit "FW VERSION RESPONSE Received"];
        writeln [Lit "Firmware identifier: "; Val (num 3)];
        writeln [Lit "Firmware major: "; Val (num 0)];
        writeln [Lit "Firmware minor: "; Val (num 11)];
        writeln [Lit "Firmware internal: "; Val (num 0)] ]
      (set_firmwareInternal (num 0)
         (set_firmwareMinor (num 11)
            (set_firmwareMajor (num 0)
               (set_firmwareIdentifier (num 3) fresh)))).
Proof.
  apply (firmware_fields 255 47 3 0 0 0 11 0 fresh);
    unfold Spec.is_byte; lia.
Defined.

Lemma set_term_same (s : session) : set_term (term s ++ []) s = s.
Proof. destruct s. session_steps. rewrite app_nil_r. reflexivity. Qed.

(** The dump loop from index [a] prints the bytes from [a] on. *)
Lemma dump_loop_from (t : list Z) (n a : nat) (s : session) :
  (a + n = length t)%nat ->
  for_range a n (fun i s => term_write [Val (get t i); Lit " "] s) s
  = set_term
      (term s ++ map (fun b => write [Val (num b); Lit " "]) (drop a t)) s.
Proof.
  revert a s. induction n as [| n IH]; intros a s Hlen.
  - rewrite drop_ge by lia. cbn [map]. rewrite set_term_same. reflexivity.
  - destruct (lookup_lt_is_Some_2 t a) as [x Hx]; [lia |].
    rewrite (drop_S _ _ _ Hx).
    unfold for_range. cbn [seq fold_left map].
    unfold for_range in IH. rewrite (IH (S a)) by lia.
    unfold get. rewrite Hx.
    destruct s. session_steps. rewrite <- app_assoc. reflexivity.
Qed.

(** C9, as stated, fails on the count: a 13-byte EXG frame has ten
    bytes from offset 3 on, and all ten are printed. *)
Lemma exg_dump_counterexample :
  Spec.dumped
    (term (decode_exg [255; 98; 10; 1; 2; 3; 4; 5; 6; 7; 8; 9; 10] fresh))
  = [num 1; num 2; num 3; num 4; num 5; num 6; num 7; num 8; num 9; num 10]
  /\ length
       (Spec.dumped
          (term (decode_exg [255; 98; 10; 1; 2; 3; 4; 5; 6; 7; 8; 9; 10]
                   fresh)))
     = 10%nat.
Proof. split; reflexivity. Qed.

(** C9, amended: decoding a 13-byte EXG frame prints the chip line
    (chip 1 when [chipId] is 1, chip 2 otherwise), then the 10 bytes
    from offset 3 to the end of the buffer, in order. *)
Theorem exg_dump (t : list Z) (s : session) :
  length t = 13%nat ->
  decode_exg t s
  = set_term
      (term s
       ++ [writeln [Lit (if eqn (chipId s) 1
                         then "EXG CHIP 1 CONFIGURATION"
                         else "EXG CHIP 2 CONFIGURATION")]]
       ++ map (fun b => write [Val (num b); Lit " "]) (drop 3 t)
       ++ [writeln [Lit ""]]) s
  /\ length (drop 3 t) = 10%nat.
Proof.
  intros Hlen. split; [| rewrite length_drop; lia].
  unfold decode_exg. rewrite dump_loop_from by lia.
  destruct s. destruct (eqn _ 1); session_steps;
    repeat rewrite <- app_assoc; reflexivity.
Qed.

(** The reply FF 62 0A 01 .. 0A while chip 1 is selected. *)
Lemma exg_dump_witness :
  decode_exg [255; 98; 10; 1; 2; 3; 4; 5; 6; 7; 8; 9; 10]
    (set_chipId (num 1) fresh)
  = set_term
      ([] ++ [writeln [Lit "EXG CHIP 1 CONFIGURATION"]]
       ++ map (fun b => write [Val (num b); Lit " "])
            [1; 2; 3; 4; 5; 6; 7; 8; 9; 10]
       ++ [writeln [Lit ""]]) (set_chipId (num 1) fresh).
Proof.
  exact (proj1 (exg_dump [255; 98; 10; 1; 2; 3; 4; 5; 6; 7; 8; 9; 10]
                  (set_chipId (num 1) fresh) eq_refl)).
Defined.

(** ** Dispatch to the decoders *)

Lemma term_decode_sample (t : list Z) (s : session) :
  length (term (decode_sample t s)) = S (length (term s)).
Proof.
  unfold decode_sample. destruct s. session_steps.
  rewrite length_app. simpl. lia.
Qed.

Lemma term_firmware_body (t : list Z) (i : nat) (s : session) :
  length (term (snd (firmware_body t i s))) = (length (term s) + 5)%nat.
Proof.
  unfold firmware_body. cbn [snd]. destruct s. session_steps.
  rewrite !length_app. simpl. lia.
Qed.

Lemma term_decode_hardware (t : list Z) (s : session) :
  length (term (decode_hardware t s)) = S (length (term s)).
Proof.
  unfold decode_hardware. destruct s. session_steps.
  rewrite length_app. simpl. lia.
Qed.

Lemma term_term_writeln (text : list piece) (s : session) :
  term (term_writeln text s) = term s ++ [writeln text].
Proof. destruct s. reflexivity. Qed.

Lemma term_term_write (text : list piece) (s : session) :
  term (term_write text s) = term s ++ [write text].
Proof. destruct s. reflexivity. Qed.

Lemma term_decode_exg (t : list Z) (s : session) :
  (length (term s) < length (term (decode_exg t s)))%nat.
Proof.
  unfold decode_exg.
  set (s1 := if eqn (chipId s) 1 then _ else _).
  assert (H1 : length (term s1) = S (length (term s))).
  { subst s1. destruct (eqn _ 1); rewrite term_term_writeln, length_app;
      simpl; lia. }
  set (s2 := for_range _ _ _ s1).
  assert (H2 : (length (term s1) <= length (term s2))%nat).
  { subst s2. unfold for_range. generalize (seq 3 (length t - 3)) s1.
    clear. intros l. induction l as [| i l IH]; intros s1; [simpl; lia |].
    cbn [fold_left]. etransitivity; [| apply IH].
    rewrite term_term_write, length_app. simpl. lia. }
  rewrite term_term_writeln, length_app. simpl. lia.
Qed.

(** Every decoder leaves lines on the terminal. *)
Lemma decoder_leaves_trace (k : Spec.FrameKind) (t : list Z) (s : session) :
  (length (term s) < length (term (Spec.decoder k t s)))%nat.
Proof.
  destruct k; cbn [Spec.decoder].
  - rewrite term_decode_sample. lia.
  - unfold decode_firmware. rewrite firmware_loop_once, term_firmware_body. lia.
  - rewrite term_decode_hardware. lia.
  - apply term_decode_exg.
Qed.

(** C7, as stated, fails for the streaming-sample row: an 18-byte
    buffer that starts with 0 matches the row, but is not decoded
    while the streaming flag is off. *)
Lemma frame_dispatch_counterexample :
  Spec.table_kinds [0; 1; 0; 0; 5; 0; 0; 1; 0; 0; 2; 6; 0; 0; 3; 0; 0; 4]
  = [Spec.StreamingSample]
  /\ startStreaming fresh = false
  /\ decode [0; 1; 0; 0; 5; 0; 0; 1; 0; 0; 2; 6; 0; 0; 3; 0; 0; 4] fresh
     = fresh.
Proof. repeat split; reflexivity. Qed.

(** C7, amended: the buffer is handed to a decoder exactly when it
    matches a row of the table (discriminator and length), the
    streaming-sample row counting only while the streaming flag is
    set; a buffer matches at most one row, and one that matches none
    leaves the session as it is. *)
Theorem frame_dispatch (t : list Z) (s : session) :
  decode t s = Spec.hand_over (Spec.open_kinds (startStreaming s) t) t s
  /\ (length (Spec.table_kinds t) <= 1)%nat
  /\ (Spec.open_kinds (startStreaming s) t = [] <-> decode t s = s).
Proof.
  assert (E : decode t s
              = Spec.hand_over (Spec.open_kinds (startStreaming s) t) t s).
  { unfold decode, Spec.open_kinds, Spec.table_kinds, Spec.frame_table,
      Spec.hand_over.
    cbn [List.filter Spec.row_matches].
    destruct (Nat.eqb_spec (length t) 18), (Nat.eqb_spec (length t) 8),
      (Nat.eqb_spec (length t) 3), (Nat.eqb_spec (length t) 13);
      try lia;
      destruct (eqn (get t 0) 0), (eqn (get t 1) 47), (eqn (get t 1) 37),
        (eqn (get t 1) 98), (startStreaming s);
      reflexivity. }
  split; [exact E | split].
  - unfold Spec.table_kinds, Spec.frame_table.
    cbn [List.filter Spec.row_matches].
    destruct (Nat.eqb_spec (length t) 18), (Nat.eqb_spec (length t) 8),
      (Nat.eqb_spec (length t) 3), (Nat.eqb_spec (length t) 13);
      try lia;
      destruct (eqn (get t 0) 0), (eqn (get t 1) 47), (eqn (get t 1) 37),
        (eqn (get t 1) 98);
      simpl; lia.
  - rewrite E. split.
    + intros ->. reflexivity.
    + intros Hsame.
      destruct (Spec.open_kinds (startStreaming s) t) as [| k ks] eqn:Hk;
        [reflexivity | exfalso].
      assert (Hgrow : forall ks' s',
                (length (term s') <= length (term (Spec.hand_over ks' t s')))%nat).
      { clear. induction ks' as [| k' ks' IH]; intros s'; [simpl; lia |].
        unfold Spec.hand_over. cbn [fold_left].
        etransitivity; [| apply IH].
        pose proof (decoder_leaves_trace k' t s'). lia. }
      pose proof (decoder_leaves_trace k t s) as Hk1.
      pose proof (Hgrow ks (Spec.decoder k t s)) as Hk2.
      unfold Spec.hand_over in Hsame, Hk2. cbn [fold_left] in Hsame.
      rewrite Hsame in Hk2. lia.
Qed.

(** ** Command encoder *)

Lemma lookup_map {A B : Type} (f : A -> B) (l : list A) (i : nat) :
  map f l !! i = option_map f (l !! i).
Proof.
  revert i. induction l as [| x l IH]; intros [| i]; try reflexivity.
  apply IH.
Qed.

(** The fill loop stores [f i] at every index it visits. *)
Lemma fill_loop (f : nat -> Z) (k a : nat) (arr : list Z) :
  (a + k <= length arr)%nat ->
  for_range a k (fun i arr => <[i := f i]> arr) arr
  = take a arr ++ map f (seq a k) ++ drop (a + k) arr.
Proof.
  revert a arr. induction k as [| k IH]; intros a arr Hlen.
  - unfold for_range. cbn [seq fold_left map app].
    rewrite Nat.add_0_r, take_drop. reflexivity.
  - unfold for_range. cbn [seq fold_left map].
    unfold for_range in IH. rewrite IH by (rewrite length_insert; lia).
    rewrite (take_S_r _ _ (f a))
      by (apply list_lookup_insert_eq; lia).
    rewrite take_insert_ge by lia.
    rewrite drop_insert_lt by lia.
    rewrite <- app_assoc. cbn [app].
    replace (S a + k)%nat with (a + S k)%nat by lia. reflexivity.
Qed.

Lemma convert_even (hexString : list Z) :
  hexString <> [] -> (length hexString mod 2 = 0)%nat ->
  ConvertHexStringToByteArray hexString
  = Normal (map (fun i => ToUint8 (parseInt16 (substr hexString (i * 2) 2)))
              (seq 0 (length hexString / 2))).
Proof.
  intros Hne Heven. unfold ConvertHexStringToByteArray.
  destruct (Nat.eqb_spec (length hexString) 0) as [H0 | _].
  - destruct hexString; [congruence | discriminate H0].
  - rewrite Heven. cbn [Nat.eqb negb].
    rewrite fill_loop by (rewrite length_replicate; lia).
    cbn [take app Nat.add].
    rewrite drop_ge by (rewrite length_replicate; lia).
    rewrite app_nil_r. reflexivity.
Qed.

Lemma hex_digit_range (c d : Z) :
  hex_digit c = Some d ->
  (48 <= c <= 57 /\ d = c - 48) \/ (97 <= c <= 102 /\ d = c - 87)
  \/ (65 <= c <= 70 /\ d = c - 55).
Proof.
  unfold hex_digit.
  destruct (Z.leb_spec 48 c), (Z.leb_spec c 57); cbn [andb];
    try (intros [= <-]; lia);
    destruct (Z.leb_spec 97 c), (Z.leb_spec c 102); cbn [andb];
    try (intros [= <-]; lia);
    destruct (Z.leb_spec 65 c), (Z.leb_spec c 70); cbn [andb];
    try (intros [= <-]; lia); discriminate.
Qed.

Lemma hex_not_white_space (c d : Z) :
  hex_digit c = Some d -> is_white_space c = false.
Proof.
  intros H. apply hex_digit_range in H. unfold is_white_space.
  repeat match goal with
         | |- context [c =? ?n] =>
             replace (c =? n) with false by (symmetry; apply Z.eqb_neq; lia)
         end.
  replace (8192 <=? c) with false by (symmetry; apply Z.leb_gt; lia).
  reflexivity.
Qed.

(** [parseInt] of a pair of hex digits is the byte they spell. *)
Lemma parse_hex_pair (hi lo dh dl : Z) :
  hex_digit hi = Some dh -> hex_digit lo = Some dl ->
  ToUint8 (parseInt16 [hi; lo]) = 16 * dh + dl.
Proof.
  intros Hhi Hlo. unfold parseInt16.
  cbn [skip_white_space]. rewrite (hex_not_white_space _ _ Hhi).
  pose proof (hex_digit_range _ _ Hhi) as Rhi.
  pose proof (hex_digit_range _ _ Hlo) as Rlo.
  replace (hi =? 45) with false by (symmetry; apply Z.eqb_neq; lia).
  replace (hi =? 43) with false by (symmetry; apply Z.eqb_neq; lia).
  cbn [orb].
  replace (lo =? 120) with false by (symmetry; apply Z.eqb_neq; lia).
  replace (lo =? 88) with false by (symmetry; apply Z.eqb_neq; lia).
  cbn [orb]. rewrite andb_false_r.
  cbn [digits_prefix]. rewrite Hhi, Hlo.
  unfold digits_value, ToUint8. cbn [fold_left].
  rewrite Z.mod_small; lia.
Qed.

Lemma mod2_odd (n : nat) : (n mod 2 <> 0)%nat <-> Nat.Odd n.
Proof.
  pose proof (Nat.div_mod_eq n 2) as Hdm.
  pose proof (Nat.mod_upper_bound n 2 ltac:(lia)) as Hlt.
  split.
  - intros Hne. exists (n / 2)%nat. lia.
  - intros [m Hm] H0. lia.
Qed.

(** C3, as stated, fails: a string with characters that are not hex
    digits is encoded (to a zero byte here), not rejected. *)
Lemma hex_encoder_counterexample :
  Spec.malformed_hex (units "zz")
  /\ ConvertHexStringToByteArray (units "zz") = Normal [0].
Proof.
  split; [| reflexivity].
  right. right. apply Exists_cons_hd. reflexivity.
Qed.

(** C3, amended: the encoder fails exactly when the string is empty or
    has an odd length (it does not check the characters); for any
    other string it returns one byte per pair of characters, and a
    pair of hex digits gives the byte they spell.  So "2E" gives the
    byte 0x2E, and "" and "2" fail. *)
Theorem hex_encoder (hexString : list Z) :
  ((exists e, ConvertHexStringToByteArray hexString = Throw e)
   <-> hexString = [] \/ Nat.Odd (length hexString))
  /\ (forall bytes,
        ConvertHexStringToByteArray hexString = Normal bytes ->
        length bytes = (length hexString / 2)%nat
        /\ forall (i : nat) (hi lo dh dl : Z),
             hexString !! (2 * i)%nat = Some hi ->
             hexString !! (2 * i + 1)%nat = Some lo ->
             hex_digit hi = Some dh -> hex_digit lo = Some dl ->
             bytes !! i = Some (16 * dh + dl))
  /\ ConvertHexStringToByteArray (units "2E") = Normal [0x2E]
  /\ ConvertHexStringToByteArray (units "")
     = Throw (Error "hex string cannot be empty")
  /\ ConvertHexStringToByteArray (units "2")
     = Throw (Error "Must have an even number of hex digits").
Proof.
  split; [| split; [| repeat split; reflexivity]].
  - split.
    + intros [e He]. destruct hexString as [| c r]; [left; reflexivity |].
      right. apply mod2_odd. intros Heven.
      rewrite convert_even in He by (congruence || exact Heven).
      discriminate He.
    + intros [-> | Hodd].
      * eexists. reflexivity.
      * apply mod2_odd in Hodd. unfold ConvertHexStringToByteArray.
        destruct (Nat.eqb_spec (length hexString) 0) as [H0 | _];
          [eexists; reflexivity |].
        destruct (Nat.eqb_spec (length hexString mod 2) 0) as [H2 | _];
          [contradiction |].
        eexists. reflexivity.
  - intros bytes Hret.
    assert (Hne : hexString <> []) by (intros ->; discriminate Hret).
    destruct (Nat.eq_dec (length hexString mod 2)%nat 0%nat) as [Heven | Hodd].
    + rewrite convert_even in Hret by assumption.
      injection Hret as <-. split.
      * rewrite length_map, length_seq. reflexivity.
      * intros i hi lo dh dl Hhi Hlo Dhi Dlo.
        assert (Hi : (i < length hexString / 2)%nat).
        { apply lookup_lt_Some in Hlo.
          pose proof (Nat.div_mod_eq (length hexString) 2). lia. }
        rewrite lookup_map.
        rewrite lookup_seq_lt by exact Hi. cbn [option_map Nat.add].
        f_equal. unfold substr.
        replace (i * 2)%nat with (2 * i)%nat by lia.
        rewrite (drop_S _ _ _ Hhi).
        replace (S (2 * i)) with (2 * i + 1)%nat by lia.
        rewrite (drop_S _ _ _ Hlo). cbn [take].
        apply parse_hex_pair; assumption.
    + exfalso. unfold ConvertHexStringToByteArray in Hret.
      destruct (Nat.eqb_spec (length hexString) 0) as [H0 | _];
        [discriminate Hret |].
      destruct (Nat.eqb_spec (length hexString mod 2) 0) as [H2 | _];
        [contradiction | discriminate Hret].
Qed.

(** The encoder on "2E": one byte, spelled by the digits 2 and E. *)
Lemma hex_encoder_witness :
  length [46] = (length (units "2E") / 2)%nat
  /\ [46] !! 0%nat = Some (16 * 2 + 14).
Proof.
  destruct (proj1 (proj2 (hex_encoder (units "2E"))) [46] eq_refl)
    as [Hlen Hbyte].
  split; [exact Hlen |].
  exact (Hbyte 0%nat 50 69 2 14 eq_refl eq_refl eq_refl eq_refl).
Defined.

(** ** Sample decoder *)

Lemma byte_or_zero_byte (data : list Z) (i : nat) :
  Forall Spec.is_byte data -> Spec.is_byte (Spec.byte_or_zero data i).
Proof.
  intros Hall. unfold Spec.byte_or_zero.
  destruct (data !! i) as [b |] eqn:Hb; cbn [default].
  - exact (Forall_lookup_1 _ _ _ _ Hall Hb).
  - unfold Spec.is_byte. lia.
Qed.

(** [data[i] & 0xFF] is the byte at [i], or 0 beyond the end. *)
Lemma band_get (data : list Z) (i : nat) :
  Forall Spec.is_byte data ->
  band (get data i) 255 = Spec.byte_or_zero data i.
Proof.
  intros Hall. unfold get, Spec.byte_or_zero.
  destruct (data !! i) as [b |] eqn:Hb; cbn [default].
  - apply band_byte. exact (Forall_lookup_1 _ _ _ _ Hall Hb).
  - reflexivity.
Qed.

(** The loop of [ParseData] pushes the fields laid out from [j] on. *)
Lemma parse_loop_fields (data : list Z) (descriptor : list Spec.FieldType) :
  Forall Spec.is_byte data ->
  forall (j : nat) (parsedData : list value),
    ParseData_loop data (map Spec.type_name descriptor) j parsedData
    = parsedData ++ Spec.fields_from data j descriptor.
Proof.
  intros Hall. induction descriptor as [| ty rest IH]; intros j parsedData.
  - cbn [map ParseData_loop Spec.fields_from]. rewrite app_nil_r. reflexivity.
  - pose proof (byte_or_zero_byte data j Hall) as B0.
    pose proof (byte_or_zero_byte data (j + 1) Hall) as B1.
    pose proof (byte_or_zero_byte data (j + 2) Hall) as B2.
    destruct ty; cbn [map Spec.type_name ParseData_loop Spec.fields_from
                      Spec.field_at Spec.width];
      repeat match goal with
             | |- context [String.eqb ?a ?b] =>
                 let v := eval vm_compute in (String.eqb a b) in
                 change (String.eqb a b) with v
             end;
      cbv iota; rewrite IH, <- app_assoc; cbn [app];
      rewrite ?band_get by exact Hall;
      rewrite ?shl_byte_8, ?shl_byte_16 by assumption;
      reflexivity.
Qed.

Lemma fields_from_length (data : list Z) (descriptor : list Spec.FieldType)
  (o : nat) :
  length (Spec.fields_from data o descriptor) = length descriptor.
Proof.
  revert o. induction descriptor as [| ty rest IH]; intros o;
    [reflexivity | cbn [Spec.fields_from length]; rewrite IH; reflexivity].
Qed.

Lemma fields_from_lookup (data : list Z) (descriptor : list Spec.FieldType) :
  forall (o k : nat) (ty : Spec.FieldType),
    descriptor !! k = Some ty ->
    Spec.fields_from data o descriptor !! k
    = Some (Spec.field_at data (o + Spec.offset descriptor k) ty).
Proof.
  induction descriptor as [| ty0 rest IH]; intros o k ty Hk;
    [discriminate Hk |].
  destruct k as [| k].
  - simpl in Hk. injection Hk as ->. cbn [Spec.fields_from].
    unfold Spec.offset. cbn [take Spec.sum_widths foldr].
    rewrite Nat.add_0_r. reflexivity.
  - cbn [Spec.fields_from]. simpl in Hk.
    change ((?x :: ?l) !! S k) with (l !! k).
    rewrite (IH _ _ _ Hk). unfold Spec.offset.
    cbn [take Spec.sum_widths foldr]. rewrite Nat.add_assoc. reflexivity.
Qed.

Lemma drop_eq_cons {A : Type} (l : list A) (o : nat) (x : A) (tl : list A) :
  drop o l = x :: tl -> l !! o = Some x /\ drop (o + 1) l = tl.
Proof.
  intros Hdrop. split.
  - pose proof (lookup_drop l o 0) as E.
    rewrite Hdrop, Nat.add_0_r in E. symmetry. exact E.
  - rewrite <- drop_drop, Hdrop. reflexivity.
Qed.

(** With enough bytes from [o] on, the layout is the one section 4.4
    describes. *)
Lemma fields_from_spec (data : list Z) (descriptor : list Spec.FieldType) :
  Forall Spec.is_byte data ->
  forall (o : nat) (vs : list Z),
    Spec.decodeSample (drop o data) descriptor = Some vs ->
    Spec.fields_from data o descriptor = map num vs.
Proof.
  intros Hall. induction descriptor as [| ty rest IH]; intros o vs Hdec.
  - cbn [Spec.decodeSample] in Hdec. injection Hdec as <-. reflexivity.
  - cbn [Spec.fields_from].
    destruct ty; cbn [Spec.decodeSample] in Hdec.
    + destruct (drop o data) as [| b0 tl] eqn:Hdrop; [discriminate Hdec |].
      destruct (Spec.decodeSample tl rest) as [ws |] eqn:Hrest;
        [| discriminate Hdec].
      injection Hdec as <-.
      destruct (drop_eq_cons _ _ _ _ Hdrop) as [H0 Htl].
      cbn [Spec.width map Spec.field_at]. unfold get. rewrite H0.
      f_equal. apply IH. rewrite Htl. exact Hrest.
    + destruct (drop o data) as [| b0 [| b1 [| b2 tl]]] eqn:Hdrop;
        try discriminate Hdec.
      destruct (Spec.decodeSample tl rest) as [ws |] eqn:Hrest;
        [| discriminate Hdec].
      injection Hdec as <-.
      destruct (drop_eq_cons _ _ _ _ Hdrop) as [H0 Hd1].
      destruct (drop_eq_cons _ _ _ _ Hd1) as [H1 Hd2].
      destruct (drop_eq_cons _ _ _ _ Hd2) as [H2 Htl].
      replace (o + 1 + 1)%nat with (o + 2)%nat in H2 by lia.
      replace (o + 1 + 1 + 1)%nat with (o + 3)%nat in Htl by lia.
      cbn [Spec.width map Spec.field_at]. unfold Spec.byte_or_zero.
      rewrite H0, H1, H2. cbn [default].
      rewrite lor_little_endian
        by (eapply Forall_lookup_1; [exact Hall | eassumption]).
      f_equal. apply IH. rewrite Htl. exact Hrest.
    + destruct (drop o data) as [| b0 [| b1 [| b2 tl]]] eqn:Hdrop;
        try discriminate Hdec.
      destruct (Spec.decodeSample tl rest) as [ws |] eqn:Hrest;
        [| discriminate Hdec].
      injection Hdec as <-.
      destruct (drop_eq_cons _ _ _ _ Hdrop) as [H0 Hd1].
      destruct (drop_eq_cons _ _ _ _ Hd1) as [H1 Hd2].
      destruct (drop_eq_cons _ _ _ _ Hd2) as [H2 Htl].
      replace (o + 1 + 1)%nat with (o + 2)%nat in H2 by lia.
      replace (o + 1 + 1 + 1)%nat with (o + 3)%nat in Htl by lia.
      cbn [Spec.width map Spec.field_at]. unfold Spec.byte_or_zero.
      rewrite H0, H1, H2. cbn [default].
      rewrite lor_big_endian
        by (eapply Forall_lookup_1; [exact Hall | eassumption]).
      f_equal. apply IH. rewrite Htl. exact Hrest.
Qed.

(** A payload at least as long as the widths decodes. *)
Lemma decodeSample_enough (descriptor : list Spec.FieldType) :
  forall payload : list Z,
    (Spec.sum_widths descriptor <= length payload)%nat ->
    exists vs, Spec.decodeSample payload descriptor = Some vs.
Proof.
  induction descriptor as [| ty rest IH]; intros payload Hlen.
  - eexists. reflexivity.
  - cbn [Spec.sum_widths foldr] in Hlen.
    change (foldr _ 0%nat rest) with (Spec.sum_widths rest) in Hlen.
    destruct ty; cbn [Spec.width] in Hlen; cbn [Spec.decodeSample].
    + destruct payload as [| b0 tl]; [cbn in Hlen; lia |].
      destruct (IH tl) as [ws Hws]; [cbn in Hlen; lia |].
      rewrite Hws. eexists. reflexivity.
    + destruct payload as [| b0 [| b1 [| b2 tl]]]; try (cbn in Hlen; lia).
      destruct (IH tl) as [ws Hws]; [cbn in Hlen; lia |].
      rewrite Hws. eexists. reflexivity.
    + destruct payload as [| b0 [| b1 [| b2 tl]]]; try (cbn in Hlen; lia).
      destruct (IH tl) as [ws Hws]; [cbn in Hlen; lia |].
      rewrite Hws. eexists. reflexivity.
Qed.

(** C4: on a payload that holds enough bytes, [ParseData] returns what
    the left-to-right walk of section 4.4 returns: one byte for u8,
    b0 | (b1 << 8) | (b2 << 16) for u24, (b0 << 16) | (b1 << 8) | b2
    for i24r, with no sign extension; the sample of section 8 decodes
    to 1, 5, 1, 2, 6, 3, 4. *)
Theorem sample_layout (payload : list Z) (descriptor : list Spec.FieldType) :
  Forall Spec.is_byte payload ->
  (Spec.sum_widths descriptor <= length payload)%nat ->
  (exists vs,
      Spec.decodeSample payload descriptor = Some vs
      /\ call_ParseData payload (map Spec.type_name descriptor)
         = Normal (map num vs))
  /\ dataTypes
     = map Spec.type_name
         [Spec.u24; Spec.u8; Spec.i24r; Spec.i24r; Spec.u8; Spec.i24r;
          Spec.i24r]
  /\ ParseData [1; 0; 0; 5; 0; 0; 1; 0; 0; 2; 6; 0; 0; 3; 0; 0; 4] dataTypes
     = [num 1; num 5; num 1; num 2; num 6; num 3; num 4]
  /\ ParseData [0; 0; 128] ["i24r"] = [num 128]
  /\ ParseData [128; 0; 0] ["i24r"] = [num 8388608].
Proof.
  intros Hall Hlen. split; [| repeat split; reflexivity].
  destruct (decodeSample_enough descriptor payload Hlen) as [vs Hvs].
  exists vs. split; [exact Hvs |].
  unfold call_ParseData, ParseData. f_equal.
  rewrite parse_loop_fields by exact Hall. cbn [app].
  apply fields_from_spec; [exact Hall | exact Hvs].
Qed.

(** A u24 field followed by a u8 field, on four bytes. *)
Lemma sample_layout_witness :
  (exists vs,
      Spec.decodeSample [1; 2; 3; 5] [Spec.u24; Spec.u8] = Some vs
      /\ call_ParseData [1; 2; 3; 5] (map Spec.type_name [Spec.u24; Spec.u8])
         = Normal (map num vs))
  /\ dataTypes
     = map Spec.type_name
         [Spec.u24; Spec.u8; Spec.i24r; Spec.i24r; Spec.u8; Spec.i24r;
          Spec.i24r]
  /\ ParseData [1; 0; 0; 5; 0; 0; 1; 0; 0; 2; 6; 0; 0; 3; 0; 0; 4] dataTypes
     = [num 1; num 5; num 1; num 2; num 6; num 3; num 4]
  /\ ParseData [0; 0; 128] ["i24r"] = [num 128]
  /\ ParseData [128; 0; 0] ["i24r"] = [num 8388608].
Proof.
  apply (sample_layout [1; 2; 3; 5] [Spec.u24; Spec.u8]).
  - repeat constructor; unfold Spec.is_byte; lia.
  - simpl. lia.
Defined.

(** C5, as stated, fails: on an empty payload and the descriptor
    [u8, u24] (4 bytes wide) [ParseData] returns a result. *)
Lemma truncated_payload_counterexample :
  (length ([] : list Z) < Spec.sum_widths [Spec.u8; Spec.u24])%nat
  /\ call_ParseData [] (map Spec.type_name [Spec.u8; Spec.u24])
     = Normal [undefined; num 0].
Proof. split; [simpl; lia | reflexivity]. Qed.

(** C5, amended: [ParseData] returns for every payload, whatever its
    length, with one value per descriptor entry; entry [k] is the field
    at the entry's offset, where a byte beyond the end of the payload
    counts as 0 in a u24 or i24r field and a u8 field beyond the end
    is [undefined]. *)
Theorem sample_decoder_total (payload : list Z)
  (descriptor : list Spec.FieldType) :
  Forall Spec.is_byte payload ->
  exists vs,
    call_ParseData payload (map Spec.type_name descriptor) = Normal vs
    /\ length vs = length descriptor
    /\ forall (k : nat) (ty : Spec.FieldType),
         descriptor !! k = Some ty ->
         vs !! k
         = Some (Spec.field_at payload (Spec.offset descriptor k) ty).
Proof.
  intros Hall. exists (Spec.fields_from payload 0 descriptor).
  split; [| split].
  - unfold call_ParseData, ParseData.
    rewrite parse_loop_fields by exact Hall. reflexivity.
  - apply fields_from_length.
  - intros k ty Hk. apply (fields_from_lookup payload descriptor 0 k ty Hk).
Qed.

(** One byte against a descriptor that asks for four. *)
Lemma sample_decoder_total_witness :
  exists vs,
    call_ParseData [7] (map Spec.type_name [Spec.u24; Spec.u8]) = Normal vs
    /\ length vs = length [Spec.u24; Spec.u8]
    /\ forall (k : nat) (ty : Spec.FieldType),
         [Spec.u24; Spec.u8] !! k = Some ty ->
         vs !! k
         = Some (Spec.field_at [7] (Spec.offset [Spec.u24; Spec.u8] k) ty).
Proof.
  apply (sample_decoder_total [7] [Spec.u24; Spec.u8]).
  repeat constructor; unfold Spec.is_byte; lia.
Defined.

(** ** Reassembly of a firmware-version frame *)

Lemma set_temp_set_temp (a b : option (list Z)) (s : session) :
  set_temp a (set_temp b s) = set_temp a s.
Proof. destruct s. reflexivity. Qed.

Lemma temp_set_temp (a : option (list Z)) (s : session) :
  temp (set_temp a s) = a.
Proof. destruct s. reflexivity. Qed.

Lemma eqn_get_false (c : list Z) (n : Z) :
  c !! 0%nat <> Some n -> eqn (get c 0) n = false.
Proof.
  intros Hne. unfold get. destruct (c !! 0%nat) as [b |]; [| reflexivity].
  simpl. apply Z.eqb_neq. congruence.
Qed.

(** A proper prefix of a firmware-version frame matches no row. *)
Lemma decode_short_prefix (buf f : list Z) (s : session) :
  length f = 8%nat -> f !! 1%nat = Some 47 ->
  buf `prefix_of` f -> (length buf < 8)%nat ->
  decode buf s = s.
Proof.
  intros Hlen H47 Hpre Hshort. unfold decode.
  destruct (Nat.eqb_spec (length buf) 18); [lia |].
  destruct (Nat.eqb_spec (length buf) 8); [lia |].
  rewrite !andb_false_r. cbn [andb].
  assert (E37 : eqn (get buf 1) 37 = false).
  { unfold get. destruct (buf !! 1%nat) as [b |] eqn:Hb; [| reflexivity].
    rewrite (prefix_lookup_Some _ _ _ _ Hb Hpre) in H47.
    injection H47 as ->. reflexivity. }
  assert (E98 : eqn (get buf 1) 98 = false).
  { unfold get. destruct (buf !! 1%nat) as [b |] eqn:Hb; [| reflexivity].
    rewrite (prefix_lookup_Some _ _ _ _ Hb Hpre) in H47.
    injection H47 as ->. reflexivity. }
  rewrite E37, E98. reflexivity.
Qed.

(** A complete firmware-version frame goes to the firmware decoder. *)
Lemma decode_firmware_frame (f : list Z) (s : session) :
  length f = 8%nat -> f !! 1%nat = Some 47 ->
  decode f s = decode_firmware f s.
Proof.
  intros Hlen H47. unfold decode. rewrite Hlen.
  cbn [Nat.eqb]. rewrite andb_false_r. cbn [andb].
  unfold get. rewrite H47. reflexivity.
Qed.

(** A chunk that does not start with a marker is appended. *)
Lemma read_value_append (c acc : list Z) (s : session) :
  c !! 0%nat <> Some 0 -> c !! 0%nat <> Some 255 ->
  read_value c (set_temp (Some acc) s)
  = decode (acc ++ c) (set_temp (Some (acc ++ c)) s).
Proof.
  intros H0 H255. unfold read_value, on_chunk, ack_notice.
  rewrite (eqn_get_false _ _ H255). cbn [andb].
  rewrite temp_set_temp.
  rewrite reassemble_append by (apply eqn_get_false; assumption).
  rewrite set_temp_set_temp. reflexivity.
Qed.

(** A chunk that starts with a marker replaces the buffer. *)
Lemma read_value_marker (c : list Z) (s : session) :
  c !! 0%nat = Some 0 \/ c !! 0%nat = Some 255 ->
  read_value c s = decode c (set_temp (Some c) (ack_notice c s)).
Proof.
  intros Hm. unfold read_value, on_chunk.
  rewrite reassemble_marker; [reflexivity |].
  unfold get. destruct Hm as [-> | ->]; [right | left]; reflexivity.
Qed.

Lemma ack_notice_head (c f : list Z) (s : session) :
  c !! 0%nat = f !! 0%nat -> ack_notice c s = ack_notice f s.
Proof. intros E. unfold ack_notice, get. rewrite E. reflexivity. Qed.

Lemma feed_cons (c : list Z) (rest : list (list Z)) (s : session) :
  feed (c :: rest) s = feed rest (read_value c s).
Proof. reflexivity. Qed.

(** Once the first chunk is in the buffer, the remaining chunks of the
    frame, none starting with a marker, complete it. *)
Lemma feed_continuation (f : list Z) :
  length f = 8%nat -> f !! 1%nat = Some 47 ->
  forall (rest : list (list Z)) (acc : list Z) (s : session),
    rest <> [] ->
    acc ++ concat rest = f ->
    Forall (fun c => c <> []) rest ->
    Forall (fun c => c !! 0%nat <> Some 0 /\ c !! 0%nat <> Some 255) rest ->
    feed rest (set_temp (Some acc) s) = decode f (set_temp (Some f) s).
Proof.
  intros Hlen H47. induction rest as [| c rest IH];
    intros acc s Hne Hcat Hnonempty Hplain; [congruence |].
  inversion Hnonempty as [| ? ? Hc Hrest_ne]; subst.
  inversion Hplain as [| ? ? [Hc0 Hc255] Hrest_plain]; subst.
  rewrite feed_cons, read_value_append by assumption.
  destruct rest as [| c' rest'].
  - cbn [concat] in *. rewrite app_nil_r in *. reflexivity.
  - rewrite (decode_short_prefix (acc ++ c) (acc ++ concat (c :: c' :: rest')));
      try assumption.
    + apply IH; try assumption; try discriminate.
      cbn [concat] in *. rewrite <- app_assoc. reflexivity.
    + cbn [concat]. rewrite app_assoc. apply prefix_app_r. reflexivity.
    + inversion Hrest_ne as [| ? ? Hc' _]; subst.
      cbn [concat] in Hlen. rewrite !length_app in Hlen.
      rewrite length_app.
      destruct c' as [| x c']; [congruence |]. cbn [length] in Hlen. lia.
Qed.

Lemma firmware_body_responses (t : list Z) (i : nat) (s : session) :
  firmware_responses (snd (firmware_body t i s)) = S (firmware_responses s)
  /\ temp (snd (firmware_body t i s)) = temp s.
Proof.
  unfold firmware_body, firmware_responses. cbn [snd].
  destruct s. session_steps.
  rewrite !List.filter_app, !length_app. split; [| reflexivity].
  vm_compute List.filter at 2 3 4 5 6. cbn [length]. lia.
Qed.

Lemma ack_notice_responses (c : list Z) (s : session) :
  firmware_responses (ack_notice c s) = firmware_responses s
  /\ temp (ack_notice c s) = temp s.
Proof.
  unfold ack_notice, firmware_responses.
  destruct s as [streaming ? ? ? ? ? ? ? lines ? ?].
  destruct (eqn (get c 0) 255); cbn [andb];
    [| split; reflexivity].
  session_steps. destruct streaming; [| split; reflexivity].
  rewrite !List.filter_app, !length_app. split; [| reflexivity].
  vm_compute List.filter at 2 3. cbn [length]. lia.
Qed.

(** Feeding the whole frame in one chunk. *)
Lemma feed_unsplit (f : list Z) (s : session) :
  length f = 8%nat -> f !! 1%nat = Some 47 ->
  f !! 0%nat = Some 0 \/ f !! 0%nat = Some 255 ->
  feed [f] s = decode_firmware f (set_temp (Some f) (ack_notice f s)).
Proof.
  intros Hlen H47 Hm. unfold feed. cbn [fold_left].
  rewrite read_value_marker by exact Hm.
  apply decode_firmware_frame; assumption.
Qed.

(** C6, as stated, fails.  Split before a zero byte, the frame
    FF 2F 03 00 00 00 0B 00 is never completed: the second chunk
    starts with 0, which resets the buffer, and no firmware-version
    frame is decoded, while the unsplit frame is decoded once.  And a
    frame whose first byte is no marker (01 2F ...) is not decoded at
    all on a new connection. *)
Lemma firmware_chunks_counterexample :
  concat [[255; 47; 3]; [0; 0; 0; 11; 0]] = [255; 47; 3; 0; 0; 0; 11; 0]
  /\ firmware_responses (feed [[255; 47; 3; 0; 0; 0; 11; 0]] fresh) = 1%nat
  /\ firmware_responses (feed [[255; 47; 3]; [0; 0; 0; 11; 0]] fresh) = 0%nat
  /\ temp (feed [[255; 47; 3]; [0; 0; 0; 11; 0]] fresh)
     = Some [0; 0; 0; 11; 0]
  /\ firmware_responses (feed [[1; 47; 3; 0; 0; 0; 11; 0]] fresh) = 0%nat.
Proof. repeat split; reflexivity. Qed.

(** C6, amended: take an 8-byte firmware-version frame that starts
    with a marker byte (0x00 or 0xFF) and any split of it into
    non-empty consecutive chunks of which none but the first starts
    with 0x00 or 0xFF.  Fed in order, from any session, the chunks
    leave the session exactly as the unsplit frame does: the
    firmware-version frame is decoded once, and the buffer holds the
    frame's bytes. *)
Theorem firmware_chunks (f : list Z) (chunks : list (list Z)) (s : session) :
  length f = 8%nat -> f !! 1%nat = Some 47 ->
  f !! 0%nat = Some 0 \/ f !! 0%nat = Some 255 ->
  concat chunks = f ->
  Forall (fun c => c <> []) chunks ->
  Forall (fun c => c !! 0%nat <> Some 0 /\ c !! 0%nat <> Some 255)
    (tail chunks) ->
  feed chunks s = feed [f] s
  /\ firmware_responses (feed chunks s) = S (firmware_responses s)
  /\ temp (feed chunks s) = Some f.
Proof.
  intros Hlen H47 Hm Hcat Hnonempty Hplain.
  assert (Hsame : feed chunks s = feed [f] s).
  { destruct chunks as [| c0 rest].
    - cbn [concat] in Hcat. subst f. discriminate Hlen.
    - inversion Hnonempty as [| ? ? Hc0 Hrest_ne]; subst.
      cbn [tail] in Hplain.
      destruct rest as [| c1 rest'].
      + cbn [concat]. rewrite app_nil_r. reflexivity.
      + assert (Hhead : c0 !! 0%nat = concat (c0 :: c1 :: rest') !! 0%nat).
        { cbn [concat]. destruct c0 as [| x c0]; [congruence | reflexivity]. }
        rewrite feed_unsplit by assumption.
        rewrite <- decode_firmware_frame by assumption.
        rewrite (feed_cons c0), read_value_marker by (rewrite Hhead; exact Hm).
        rewrite (decode_short_prefix c0 (concat (c0 :: c1 :: rest')));
          try assumption.
        * rewrite (ack_notice_head _ _ _ Hhead).
          apply feed_continuation; try assumption; try discriminate.
          reflexivity.
        * cbn [concat]. apply prefix_app_r. reflexivity.
        * inversion Hrest_ne as [| ? ? Hc1 _]; subst.
          cbn [concat] in Hlen. rewrite !length_app in Hlen.
          destruct c1 as [| x c1]; [congruence |]. cbn [length] in Hlen. lia. }
  rewrite Hsame, feed_unsplit by assumption.
  unfold decode_firmware. rewrite firmware_loop_once.
  destruct (firmware_body_responses f 2
              (set_temp (Some f) (ack_notice f s))) as [Hcount Htemp].
  destruct (ack_notice_responses f s) as [Hack _].
  split; [reflexivity | split].
  - rewrite Hcount. f_equal. rewrite <- Hack.
    unfold firmware_responses. destruct (ack_notice f s). reflexivity.
  - rewrite Htemp. apply temp_set_temp.
Qed.

(** The frame FF 2F 03 01 02 01 0B 07 split in three. *)
Lemma firmware_chunks_witness :
  feed [[255; 47]; [3; 1; 2]; [1; 11; 7]] fresh
  = feed [[255; 47; 3; 1; 2; 1; 11; 7]] fresh
  /\ firmware_responses (feed [[255; 47]; [3; 1; 2]; [1; 11; 7]] fresh)
     = S (firmware_responses fresh)
  /\ temp (feed [[255; 47]; [3; 1; 2]; [1; 11; 7]] fresh)
     = Some [255; 47; 3; 1; 2; 1; 11; 7].
Proof.
  apply (firmware_chunks [255; 47; 3; 1; 2; 1; 11; 7]
           [[255; 47]; [3; 1; 2]; [1; 11; 7]] fresh).
  - reflexivity.
  - reflexivity.
  - right. reflexivity.
  - reflexivity.
  - repeat constructor; discriminate.
  - repeat constructor; discriminate.
Defined.

(** ** The read loop around the handler *)

(** X1: the [TypeError] of a first chunk without marker never reaches
    the read loop: the handler's promise is fulfilled before the error
    is thrown, so the iteration ends normally and leaves the session,
    the still missing buffer included, as it was. *)
Theorem first_chunk_error_discarded (b : Z) (rest : list Z) (s : session) :
  temp s = None -> b <> 0 -> b <> 255 ->
  read_value (b :: rest) s = s /\ temp (read_value (b :: rest) s) = None.
Proof.
  intros Htemp H0 H255.
  assert (E : read_value (b :: rest) s = s).
  { unfold read_value, on_chunk, ack_notice, reassemble.
    replace (eqn (get (b :: rest) 0) 255) with false
      by (symmetry; simpl; apply Z.eqb_neq; exact H255).
    replace (eqn (get (b :: rest) 0) 0) with false
      by (symmetry; simpl; apply Z.eqb_neq; exact H0).
    cbn [andb orb]. rewrite Htemp. reflexivity. }
  rewrite E. split; [reflexivity | exact Htemp].
Qed.

(** A connection whose first chunk is 2F 03 00. *)
Lemma first_chunk_error_discarded_witness :
  read_value [47; 3; 0] fresh = fresh
  /\ temp (read_value [47; 3; 0] fresh) = None.
Proof.
  apply (first_chunk_error_discarded 47 [3; 0] fresh);
    [reflexivity | lia | lia].
Defined.



(** * Further properties of the code *)

(** ** Command encoder: range, odd pairs, round trip *)

Lemma ToUint8_byte (p : parsed) : Spec.is_byte (ToUint8 p).
Proof.
  unfold Spec.is_byte. destruct p as [| n]; cbn [ToUint8]; [lia |].
  apply Z.mod_pos_bound. lia.
Qed.

(** X3: whatever the text, the encoder returns bytes: every element
    of a returned array lies in [0, 256). *)
Theorem hex_bytes_in_range (hexString bytes : list Z) :
  ConvertHexStringToByteArray hexString = Normal bytes ->
  Forall Spec.is_byte bytes.
Proof.
  intros Hret.
  assert (Hne : hexString <> []) by (intros ->; discriminate Hret).
  destruct (Nat.eq_dec (length hexString mod 2)%nat 0%nat) as [Heven | Hodd].
  - rewrite convert_even in Hret by assumption. injection Hret as <-.
    apply Forall_lookup. intros i b Hb. rewrite lookup_map in Hb.
    match type of Hb with
    | option_map _ ?o = _ => destruct o as [k |]
    end; cbn [option_map] in Hb; [| discriminate Hb].
    injection Hb as <-. apply ToUint8_byte.
  - exfalso. unfold ConvertHexStringToByteArray in Hret.
    destruct (Nat.eqb_spec (length hexString) 0) as [H0 | _];
      [discriminate Hret |].
    destruct (Nat.eqb_spec (length hexString mod 2) 0) as [H2 | _];
      [contradiction | discriminate Hret].
Qed.

(** The text "-1zz": the pairs "-1" and "zz". *)
Lemma hex_bytes_in_range_witness : Forall Spec.is_byte [255; 0].
Proof.
  apply (hex_bytes_in_range (units "-1zz") [255; 0]). reflexivity.
Defined.

Lemma hex_digit_none_cases (c : Z) :
  hex_digit c = None ->
  c < 48 \/ 57 < c < 65 \/ 70 < c < 97 \/ 102 < c.
Proof.
  unfold hex_digit.
  destruct (Z.leb_spec 48 c), (Z.leb_spec c 57); cbn [andb];
    try discriminate; try lia;
    destruct (Z.leb_spec 97 c), (Z.leb_spec c 102); cbn [andb];
    try discriminate; try lia;
    destruct (Z.leb_spec 65 c), (Z.leb_spec c 70); cbn [andb];
    try discriminate; lia.
Qed.

(** A hex digit followed by a character that is none: the digit alone. *)
Lemma parse_hex_then_other (hi lo dh : Z) :
  hex_digit hi = Some dh -> hex_digit lo = None ->
  ToUint8 (parseInt16 [hi; lo]) = dh.
Proof.
  intros Hhi Hlo. unfold parseInt16.
  cbn [skip_white_space]. rewrite (hex_not_white_space _ _ Hhi).
  pose proof (hex_digit_range _ _ Hhi) as Rhi.
  replace (hi =? 45) with false by (symmetry; apply Z.eqb_neq; lia).
  replace (hi =? 43) with false by (symmetry; apply Z.eqb_neq; lia).
  cbn [orb].
  destruct ((hi =? 48) && ((lo =? 120) || (lo =? 88))) eqn:Hprefix.
  - apply andb_true_iff in Hprefix. destruct Hprefix as [H48 _].
    apply Z.eqb_eq in H48. cbn [digits_prefix ToUint8]. lia.
  - cbn [digits_prefix]. rewrite Hhi, Hlo.
    unfold digits_value, ToUint8. cbn [fold_left].
    rewrite Z.mod_small; lia.
Qed.

(** A pair that starts with neither a hex digit, nor white space, nor
    a sign is no number. *)
Lemma parse_other_first (hi lo : Z) :
  hex_digit hi = None -> is_white_space hi = false ->
  hi <> 43 -> hi <> 45 ->
  ToUint8 (parseInt16 [hi; lo]) = 0.
Proof.
  intros Hhi Hws Hplus Hminus. unfold parseInt16.
  cbn [skip_white_space]. rewrite Hws.
  replace (hi =? 45) with false by (symmetry; apply Z.eqb_neq; lia).
  replace (hi =? 43) with false by (symmetry; apply Z.eqb_neq; lia).
  cbn [orb].
  pose proof (hex_digit_none_cases _ Hhi) as Rhi.
  replace (hi =? 48) with false by (symmetry; apply Z.eqb_neq; lia).
  cbn [andb digits_prefix]. rewrite Hhi. reflexivity.
Qed.

(** A minus sign before a hex digit: the digit negated, modulo 256. *)
Lemma parse_minus_digit (lo dl : Z) :
  hex_digit lo = Some dl ->
  ToUint8 (parseInt16 [45; lo]) = (- dl) mod 256.
Proof.
  intros Hlo. unfold parseInt16.
  cbn [skip_white_space].
  change (is_white_space 45) with false. cbv iota.
  change (45 =? 45) with true. change (45 =? 43) with false.
  cbn [orb]. cbv iota.
  cbn [digits_prefix]. rewrite Hlo.
  unfold digits_value, ToUint8. cbn [fold_left].
  replace (-1 * (16 * 0 + dl)) with (- dl) by lia. reflexivity.
Qed.

(** X4: the pairs that are not two hex digits are not rejected.  In
    the array the encoder returns, a pair made of a hex digit and a
    character that is none gives the digit's value alone; a pair whose
    first character is neither a hex digit, white space nor a sign
    gives 0; and a minus sign before a hex digit gives the digit
    negated modulo 256. *)
Theorem hex_odd_pairs (hexString bytes : list Z) (i : nat) (hi lo : Z) :
  ConvertHexStringToByteArray hexString = Normal bytes ->
  hexString !! (2 * i)%nat = Some hi ->
  hexString !! (2 * i + 1)%nat = Some lo ->
  (forall dh, hex_digit hi = Some dh -> hex_digit lo = None ->
              bytes !! i = Some dh)
  /\ (hex_digit hi = None -> is_white_space hi = false ->
      hi <> 43 -> hi <> 45 -> bytes !! i = Some 0)
  /\ (forall dl, hi = 45 -> hex_digit lo = Some dl ->
                 bytes !! i = Some ((- dl) mod 256)).
Proof.
  intros Hret Hhi Hlo.
  assert (Hne : hexString <> []) by (intros ->; discriminate Hret).
  assert (Heven : (length hexString mod 2)%nat = 0%nat).
  { destruct (Nat.eq_dec (length hexString mod 2)%nat 0%nat) as [E | Hodd];
      [exact E | exfalso].
    unfold ConvertHexStringToByteArray in Hret.
    destruct (Nat.eqb_spec (length hexString) 0) as [H0 | _];
      [discriminate Hret |].
    destruct (Nat.eqb_spec (length hexString mod 2) 0) as [H2 | _];
      [contradiction | discriminate Hret]. }
  rewrite convert_even in Hret by assumption. injection Hret as <-.
  assert (Hi : (i < length hexString / 2)%nat).
  { apply lookup_lt_Some in Hlo.
    pose proof (Nat.div_mod_eq (length hexString) 2). lia. }
  assert (Hpair : substr hexString (i * 2) 2 = [hi; lo]).
  { unfold substr. replace (i * 2)%nat with (2 * i)%nat by lia.
    rewrite (drop_S _ _ _ Hhi).
    replace (S (2 * i)) with (2 * i + 1)%nat by lia.
    rewrite (drop_S _ _ _ Hlo). reflexivity. }
  rewrite lookup_map, lookup_seq_lt by exact Hi.
  cbn [option_map Nat.add]. rewrite Hpair.
  split; [| split].
  - intros dh Dhi Dlo. f_equal. apply parse_hex_then_other; assumption.
  - intros Dhi Hws Hplus Hminus. f_equal. apply parse_other_first; assumption.
  - intros dl -> Dlo. f_equal. apply parse_minus_digit; assumption.
Qed.

(** The text "1z" is encoded as the byte 01. *)
Lemma hex_odd_pairs_witness : [1] !! 0%nat = Some 1.
Proof.
  exact (proj1 (hex_odd_pairs (units "1z") [1] 0 49 122
                  eq_refl eq_refl eq_refl) 1 eq_refl eq_refl).
Defined.

Lemma hex_char_digit (d : Z) :
  0 <= d < 16 -> hex_digit (Hex.hex_char d) = Some d.
Proof.
  intros Hd. unfold Hex.hex_char, hex_digit.
  destruct (Z.ltb_spec d 10).
  - replace (48 <=? 48 + d) with true by (symmetry; apply Z.leb_le; lia).
    replace (48 + d <=? 57) with true by (symmetry; apply Z.leb_le; lia).
    cbn [andb]. f_equal. lia.
  - replace (55 + d <=? 57) with false by (symmetry; apply Z.leb_gt; lia).
    rewrite andb_false_r.
    replace (97 <=? 55 + d) with false by (symmetry; apply Z.leb_gt; lia).
    cbn [andb].
    replace (65 <=? 55 + d) with true by (symmetry; apply Z.leb_le; lia).
    replace (55 + d <=? 70) with true by (symmetry; apply Z.leb_le; lia).
    cbn [andb]. f_equal. lia.
Qed.

Lemma hex_spelling_length (bytes : list Z) :
  length (Hex.hex_spelling bytes) = (2 * length bytes)%nat.
Proof.
  induction bytes as [| b rest IH]; [reflexivity |].
  cbn [Hex.hex_spelling flat_map app length] in *.
  unfold Hex.hex_spelling in IH. rewrite IH. lia.
Qed.

Lemma hex_spelling_pair (bytes : list Z) (i : nat) (b : Z) :
  bytes !! i = Some b ->
  substr (Hex.hex_spelling bytes) (i * 2) 2
  = [Hex.hex_char (b / 16); Hex.hex_char (b mod 16)].
Proof.
  revert i. induction bytes as [| b0 rest IH]; intros i Hb;
    [discriminate Hb |].
  destruct i as [| i].
  - simpl in Hb. injection Hb as ->. reflexivity.
  - simpl in Hb. specialize (IH i Hb).
    unfold substr in *. cbn [Hex.hex_spelling flat_map app Nat.mul Nat.add drop].
    exact IH.
Qed.

(** X5: every non-empty byte sequence can be sent: its spelling in
    upper-case hex digits, two per byte, is encoded back to exactly
    those bytes. *)
Theorem hex_round_trip (bytes : list Z) :
  bytes <> [] -> Forall Spec.is_byte bytes ->
  ConvertHexStringToByteArray (Hex.hex_spelling bytes) = Normal bytes.
Proof.
  intros Hne Hall.
  assert (Hlen := hex_spelling_length bytes).
  rewrite convert_even.
  - f_equal. apply list_eq. intros i.
    rewrite lookup_map, Hlen.
    replace (2 * length bytes / 2)%nat with (length bytes)
      by (rewrite Nat.mul_comm, Nat.div_mul; lia).
    destruct (bytes !! i) as [b |] eqn:Hb.
    + rewrite lookup_seq_lt by (apply lookup_lt_Some in Hb; exact Hb).
      cbn [option_map Nat.add]. rewrite (hex_spelling_pair _ _ _ Hb).
      pose proof (Forall_lookup_1 _ _ _ _ Hall Hb) as Hbyte.
      unfold Spec.is_byte in Hbyte.
      rewrite (parse_hex_pair _ _ (b / 16) (b mod 16)).
      * f_equal. pose proof (Z.div_mod b 16). lia.
      * apply hex_char_digit.
        split; [apply Z.div_pos; lia | apply Z.div_lt_upper_bound; lia].
      * apply hex_char_digit. apply Z.mod_pos_bound. lia.
    + rewrite lookup_seq_ge by (apply lookup_ge_None in Hb; exact Hb).
      reflexivity.
  - destruct bytes; [congruence | discriminate].
  - rewrite Hlen, Nat.mul_comm. apply Nat.Div0.mod_mul.
Qed.

(** The start-streaming command and a register query. *)
Lemma hex_round_trip_witness :
  ConvertHexStringToByteArray (Hex.hex_spelling [99; 1; 0; 10])
  = Normal [99; 1; 0; 10].
Proof.
  apply (hex_round_trip [99; 1; 0; 10]); [discriminate |].
  repeat constructor; unfold Spec.is_byte; lia.
Defined.

(** ** Sample decoder: unknown names, range of the values *)

Lemma parse_loop_known (data : list Z) (names : list string) :
  forall (j : nat) (parsedData : list value),
    ParseData_loop data names j parsedData
    = ParseData_loop data (List.filter Descriptor.known_type names) j
        parsedData.
Proof.
  induction names as [| ty rest IH]; intros j parsedData; [reflexivity |].
  cbn [List.filter ParseData_loop]. unfold Descriptor.known_type.
  destruct (ty =? "u8")%string eqn:E8; cbn [orb].
  - cbn [ParseData_loop]. rewrite E8. apply IH.
  - destruct (ty =? "u24")%string eqn:E24; cbn [orb].
    + cbn [ParseData_loop]. rewrite E8, E24. apply IH.
    + destruct (ty =? "i24r")%string eqn:E24r.
      * cbn [ParseData_loop]. rewrite E8, E24, E24r. apply IH.
      * apply IH.
Qed.

Lemma parse_loop_length (data : list Z) (names : list string) :
  forall (j : nat) (parsedData : list value),
    length (ParseData_loop data names j parsedData)
    = (length parsedData
       + length (List.filter Descriptor.known_type names))%nat.
Proof.
  induction names as [| ty rest IH]; intros j parsedData; [cbn; lia |].
  cbn [List.filter ParseData_loop]. unfold Descriptor.known_type at 1.
  destruct (ty =? "u8")%string; cbn [orb];
    [rewrite IH, length_app; cbn [length]; lia |].
  destruct (ty =? "u24")%string; cbn [orb];
    [rewrite IH, length_app; cbn [length]; lia |].
  destruct (ty =? "i24r")%string;
    [rewrite IH, length_app; cbn [length]; lia | apply IH].
Qed.

(** X6: a type name other than "u8", "u24" and "i24r" is skipped: it
    yields no value and consumes no byte, so the result is the one for
    the descriptor without such names, with one value per known name. *)
Theorem unknown_types_skipped (data : list Z) (names : list string) :
  ParseData data names
  = ParseData data (List.filter Descriptor.known_type names)
  /\ length (ParseData data names)
     = length (List.filter Descriptor.known_type names).
Proof.
  split; [apply parse_loop_known |].
  unfold ParseData. rewrite parse_loop_length. reflexivity.
Qed.

Lemma parse_loop_range (data : list Z) (names : list string) :
  Forall Spec.is_byte data ->
  forall (j : nat) (parsedData : list value),
    Forall (fun v => match v with
                     | undefined => True
                     | num n => 0 <= n < 2 ^ 24
                     end) parsedData ->
    Forall (fun v => match v with
                     | undefined => True
                     | num n => 0 <= n < 2 ^ 24
                     end) (ParseData_loop data names j parsedData).
Proof.
  intros Hall. induction names as [| ty rest IH]; intros j parsedData Hacc;
    [exact Hacc |].
  pose proof (byte_or_zero_byte data j Hall) as B0.
  pose proof (byte_or_zero_byte data (j + 1) Hall) as B1.
  pose proof (byte_or_zero_byte data (j + 2) Hall) as B2.
  unfold Spec.is_byte in B0, B1, B2.
  cbn [ParseData_loop].
  destruct (ty =? "u8")%string.
  { apply IH. apply Forall_app. split; [exact Hacc |].
    constructor; [| constructor]. unfold get.
    destruct (data !! j) as [b |] eqn:Hb; [| exact I].
    pose proof (Forall_lookup_1 _ _ _ _ Hall Hb) as Hbyte.
    unfold Spec.is_byte in Hbyte. cbv beta iota. lia. }
  destruct (ty =? "u24")%string.
  { apply IH. apply Forall_app. split; [exact Hacc |].
    constructor; [| constructor].
    rewrite !band_get by exact Hall.
    rewrite shl_byte_8, shl_byte_16 by (unfold Spec.is_byte; lia).
    cbv beta iota. lia. }
  destruct (ty =? "i24r")%string.
  { apply IH. apply Forall_app. split; [exact Hacc |].
    constructor; [| constructor].
    rewrite !band_get by exact Hall.
    rewrite shl_byte_8, shl_byte_16 by (unfold Spec.is_byte; lia).
    cbv beta iota. lia. }
  apply IH. exact Hacc.
Qed.

(** X7: on a byte payload every decoded value is [undefined] (a u8
    field beyond the end) or a number from 0 to 2^24 - 1: no field,
    i24r included, ever decodes to a negative number. *)
Theorem sample_values_unsigned (data : list Z) (names : list string) :
  Forall Spec.is_byte data ->
  Forall (fun v => match v with
                   | undefined => True
                   | num n => 0 <= n < 2 ^ 24
                   end) (ParseData data names).
Proof.
  intros Hall. unfold ParseData.
  apply parse_loop_range; [exact Hall | constructor].
Qed.

(** The largest i24r field. *)
Lemma sample_values_unsigned_witness :
  Forall (fun v => match v with
                   | undefined => True
                   | num n => 0 <= n < 2 ^ 24
                   end) (ParseData [255; 255; 255] ["i24r"]).
Proof.
  apply (sample_values_unsigned [255; 255; 255] ["i24r"]).
  repeat constructor; unfold Spec.is_byte; lia.
Defined.

(** ** What the read loop and the timer callbacks leave alone *)

Lemma port_side_refl (s : session) : Footprint.port_side_kept s s.
Proof. repeat split. Qed.

Lemma port_side_trans (s1 s2 s3 : session) :
  Footprint.port_side_kept s1 s2 -> Footprint.port_side_kept s2 s3 ->
  Footprint.port_side_kept s1 s3.
Proof.
  unfold Footprint.port_side_kept.
  intros (A1 & A2 & A3 & A4) (B1 & B2 & B3 & B4).
  repeat split; congruence.
Qed.

Lemma port_side_term (l : list term_call) (s : session) :
  Footprint.port_side_kept s (set_term l s).
Proof. destruct s. repeat split. Qed.

Lemma port_side_ack (value : list Z) (s : session) :
  Footprint.port_side_kept s (ack_notice value s).
Proof.
  unfold ack_notice. destruct (eqn (get value 0) 255 && startStreaming s);
    [| apply port_side_refl].
  destruct s as [streaming ? ? ? ? ? ? ? ? ? ?].
  destruct streaming; repeat split.
Qed.

Lemma port_side_firmware (t : list Z) (s : session) :
  Footprint.port_side_kept s (decode_firmware t s).
Proof.
  unfold decode_firmware. rewrite firmware_loop_once.
  unfold firmware_body. cbn [snd]. destruct s. repeat split.
Qed.

Lemma port_side_exg (t : list Z) (s : session) :
  length t = 13%nat -> Footprint.port_side_kept s (decode_exg t s).
Proof.
  intros Hlen. unfold decode_exg. rewrite dump_loop_from by lia.
  destruct s. destruct (eqn _ 1); repeat split.
Qed.

Lemma port_side_decode (t : list Z) (s : session) :
  Footprint.port_side_kept s (decode t s).
Proof.
  unfold decode.
  set (s1 := if eqn (get t 0) 0 && (length t =? 18)%nat && startStreaming s
             then decode_sample t s else s).
  assert (H1 : Footprint.port_side_kept s s1).
  { subst s1. destruct (_ && _ && _); [| apply port_side_refl].
    unfold decode_sample. destruct s. repeat split. }
  apply (port_side_trans _ _ _ H1).
  destruct (eqn (get t 1) 47 && (length t =? 8)%nat);
    [apply port_side_firmware |].
  destruct (eqn (get t 1) 37 && (length t =? 3)%nat).
  { unfold decode_hardware. destruct s1. repeat split. }
  destruct (Nat.eqb_spec (length t) 13) as [H13 | _];
    [| rewrite andb_false_r; apply port_side_refl].
  destruct (eqn (get t 1) 98); cbn [andb];
    [apply port_side_exg; exact H13 | apply port_side_refl].
Qed.

(** X8: handling a chunk never touches the writing side: whatever the
    chunk, the streaming flag, the chip selector, the bytes written to
    the port and the writer's lock are after the iteration what they
    were before. *)
Theorem read_loop_footprint (value : list Z) (s : session) :
  Footprint.port_side_kept s (read_value value s).
Proof.
  unfold read_value, on_chunk.
  destruct (reassemble value (temp (ack_notice value s))) as [t | e].
  - apply (port_side_trans _ _ _ (port_side_ack value s)).
    eapply port_side_trans; [| apply port_side_decode].
    destruct (ack_notice value s). repeat split.
  - apply port_side_ack.
Qed.

(** X9: no timer callback clears the streaming flag or touches what
    the read loop owns: a flag that is set stays set, and the identity
    fields and the assembly buffer are left as they are. *)
Theorem timer_footprint (c : step) (s : session) :
  (startStreaming s = true -> startStreaming (run c s) = true)
  /\ Footprint.read_side_kept s (run c s).
Proof.
  rewrite run_step_effect.
  destruct c; cbn [Spec.step_effect];
    try destruct (Spec.exg_identity s);
    unfold Spec.one_byte_at_a_time; destruct s;
    (split; [intros H; try exact H; reflexivity | repeat split]).
Qed.

(** The streaming step and a register step on a session that streams. *)
Lemma timer_footprint_witness :
  startStreaming (run set_exg_reg1 (set_startStreaming true fresh)) = true.
Proof.
  exact (proj1 (timer_footprint set_exg_reg1 (set_startStreaming true fresh))
           eq_refl).
Defined.

(** ** What the read loop learns and prints *)

Lemma set_temp_same (t : list Z) (s : session) :
  temp s = Some t -> set_temp (Some t) s = s.
Proof. destruct s. cbn. intros ->. reflexivity. Qed.

Lemma identity_after_firmware (t : list Z) (s : session) :
  firmwareIdentifier (decode_firmware t s)
  = num (band (get t 2) 255 + shl (band (get t 3) 255) 8)
  /\ hardwareVersion (decode_firmware t s) = hardwareVersion s.
Proof.
  unfold decode_firmware. rewrite firmware_loop_once.
  unfold firmware_body. cbn [snd]. destruct s. split; reflexivity.
Qed.

Lemma identity_after_hardware (t : list Z) (s : session) :
  firmwareIdentifier (decode_hardware t s) = firmwareIdentifier s
  /\ hardwareVersion (decode_hardware t s) = get t 2.
Proof. unfold decode_hardware. destruct s. split; reflexivity. Qed.

Lemma identity_set_temp (a : option (list Z)) (s : session) :
  firmwareIdentifier (set_temp a s) = firmwareIdentifier s
  /\ hardwareVersion (set_temp a s) = hardwareVersion s.
Proof. destruct s. split; reflexivity. Qed.

Lemma identity_ack (value : list Z) (s : session) :
  firmwareIdentifier (ack_notice value s) = firmwareIdentifier s
  /\ hardwareVersion (ack_notice value s) = hardwareVersion s.
Proof.
  unfold ack_notice. destruct (eqn (get value 0) 255 && startStreaming s);
    [| split; reflexivity].
  destruct s as [streaming ? ? ? ? ? ? ? ? ? ?].
  destruct streaming; split; reflexivity.
Qed.

(** A complete hardware-version frame goes to the hardware decoder. *)
Lemma decode_hardware_frame (m v : Z) (s : session) :
  decode [m; 37; v] s = decode_hardware [m; 37; v] s.
Proof.
  unfold decode. cbn [length Nat.eqb].
  change (eqn (get [m; 37; v] 1) 47) with false.
  change (eqn (get [m; 37; v] 1) 37) with true.
  rewrite !andb_false_r. cbn [andb]. reflexivity.
Qed.

(** X10: the identity the sequencer tests is the one the replies
    carry.  After a firmware-version reply and a hardware-version
    reply (each starting with a marker) have been read, in this order,
    the identifier is b2 + 256 * b3 and the hardware version is the
    reply's third byte, so the EXG steps are open exactly when the
    replies carry 3, 0 and 3. *)
Theorem identity_learned (m b2 b3 b4 b5 b6 b7 m' v : Z) (s : session) :
  m = 0 \/ m = 255 -> m' = 0 \/ m' = 255 ->
  Spec.is_byte b2 -> Spec.is_byte b3 -> Spec.is_byte v ->
  firmwareIdentifier
    (feed [[m; 47; b2; b3; b4; b5; b6; b7]; [m'; 37; v]] s)
  = num (b2 + 256 * b3)
  /\ hardwareVersion
       (feed [[m; 47; b2; b3; b4; b5; b6; b7]; [m'; 37; v]] s)
     = num v
  /\ (Spec.exg_identity
        (feed [[m; 47; b2; b3; b4; b5; b6; b7]; [m'; 37; v]] s) = true
      <-> b2 = 3 /\ b3 = 0 /\ v = 3).
Proof.
  intros Hm Hm' H2 H3 Hv.
  assert (Hid : firmwareIdentifier
                  (feed [[m; 47; b2; b3; b4; b5; b6; b7]; [m'; 37; v]] s)
                = num (b2 + 256 * b3)
                /\ hardwareVersion
                     (feed [[m; 47; b2; b3; b4; b5; b6; b7]; [m'; 37; v]] s)
                   = num v).
  { rewrite !feed_cons. unfold feed. cbn [fold_left].
    rewrite (read_value_marker [m'; 37; v])
      by (destruct Hm' as [-> | ->]; [left | right]; reflexivity).
    rewrite decode_hardware_frame.
    destruct (identity_after_hardware [m'; 37; v]
                (set_temp (Some [m'; 37; v])
                   (ack_notice [m'; 37; v]
                      (read_value [m; 47; b2; b3; b4; b5; b6; b7] s))))
      as [-> ->].
    split; [| reflexivity].
    rewrite (proj1 (identity_set_temp _ _)), (proj1 (identity_ack _ _)).
    rewrite read_value_marker
      by (destruct Hm as [-> | ->]; [left | right]; reflexivity).
    rewrite decode_firmware_frame by reflexivity.
    rewrite (proj1 (identity_after_firmware _ _)).
    change (get [m; 47; b2; b3; b4; b5; b6; b7] 2) with (num b2).
    change (get [m; 47; b2; b3; b4; b5; b6; b7] 3) with (num b3).
    rewrite !band_byte, shl_byte_8 by assumption. reflexivity. }
  destruct Hid as [Hfi Hhv]. split; [exact Hfi | split; [exact Hhv |]].
  unfold Spec.exg_identity. rewrite Hfi, Hhv. cbn [eqn].
  rewrite andb_true_iff, !Z.eqb_eq.
  unfold Spec.is_byte in H2, H3. lia.
Qed.

(** The replies of a Shimmer3 with EXG firmware. *)
Lemma identity_learned_witness :
  firmwareIdentifier
    (feed [[255; 47; 3; 0; 0; 0; 11; 0]; [255; 37; 3]] fresh) = num (3 + 256 * 0)
  /\ hardwareVersion
       (feed [[255; 47; 3; 0; 0; 0; 11; 0]; [255; 37; 3]] fresh) = num 3
  /\ (Spec.exg_identity
        (feed [[255; 47; 3; 0; 0; 0; 11; 0]; [255; 37; 3]] fresh) = true
      <-> 3 = 3 /\ 0 = 0 /\ 3 = 3).
Proof.
  apply (identity_learned 255 3 0 0 0 11 0 255 3 fresh);
    try (right; reflexivity); unfold Spec.is_byte; lia.
Defined.

(** X11: while streaming is on, an 18-byte chunk that starts with 0 is
    printed as one line of seven values: the values section 4.4
    assigns to the 17 bytes after the marker under the descriptor
    u24, u8, i24r, i24r, u8, i24r, i24r; nothing else changes but the
    buffer. *)
Theorem sample_chunk_printed (payload : list Z) (s : session) :
  startStreaming s = true -> length payload = 17%nat ->
  Forall Spec.is_byte payload ->
  exists vs,
    Spec.decodeSample payload
      [Spec.u24; Spec.u8; Spec.i24r; Spec.i24r; Spec.u8; Spec.i24r; Spec.i24r]
    = Some vs
    /\ length vs = 7%nat
    /\ read_value (0 :: payload) s
       = term_writeln [Arr (map num vs)] (set_temp (Some (0 :: payload)) s).
Proof.
  intros Hstream Hlen Hall.
  destruct (decodeSample_enough
              [Spec.u24; Spec.u8; Spec.i24r; Spec.i24r; Spec.u8; Spec.i24r;
               Spec.i24r] payload) as [vs Hvs];
    [cbn; lia |].
  exists vs. split; [exact Hvs | split].
  - pose proof (fields_from_spec payload _ Hall 0 vs Hvs) as Hf.
    apply (f_equal (@length value)) in Hf.
    rewrite fields_from_length, length_map in Hf. cbn in Hf. lia.
  - rewrite read_value_marker by (left; reflexivity).
    assert (Hack : ack_notice (0 :: payload) s = s) by reflexivity.
    rewrite Hack. unfold decode.
    assert (Hs : startStreaming (set_temp (Some (0 :: payload)) s) = true)
      by (destruct s; exact Hstream).
    rewrite Hs. cbn [length]. rewrite Hlen. cbn [Nat.eqb get andb].
    change (eqn (get (0 :: payload) 0) 0) with true. cbn [andb].
    rewrite !andb_false_r.
    unfold decode_sample. cbn [length]. rewrite Hlen.
    assert (Hsub : subarray (0 :: payload) 1 18 = payload).
    { unfold subarray. cbn [drop Nat.sub]. apply take_ge. lia. }
    rewrite Hsub. unfold ParseData, dataTypes.
    change ["u24"; "u8"; "i24r"; "i24r"; "u8"; "i24r"; "i24r"]
      with (map Spec.type_name
              [Spec.u24; Spec.u8; Spec.i24r; Spec.i24r; Spec.u8; Spec.i24r;
               Spec.i24r]).
    rewrite parse_loop_fields by exact Hall. cbn [app].
    rewrite (fields_from_spec payload _ Hall 0 vs Hvs). reflexivity.
Qed.

(** The sample of the specification, read while streaming. *)
Lemma sample_chunk_printed_witness :
  exists vs,
    Spec.decodeSample [1; 0; 0; 5; 0; 0; 1; 0; 0; 2; 6; 0; 0; 3; 0; 0; 4]
      [Spec.u24; Spec.u8; Spec.i24r; Spec.i24r; Spec.u8; Spec.i24r; Spec.i24r]
    = Some vs
    /\ length vs = 7%nat
    /\ read_value (0 :: [1; 0; 0; 5; 0; 0; 1; 0; 0; 2; 6; 0; 0; 3; 0; 0; 4])
         (set_startStreaming true fresh)
       = term_writeln [Arr (map num vs)]
           (set_temp
              (Some (0 :: [1; 0; 0; 5; 0; 0; 1; 0; 0; 2; 6; 0; 0; 3; 0; 0; 4]))
              (set_startStreaming true fresh)).
Proof.
  apply (sample_chunk_printed
           [1; 0; 0; 5; 0; 0; 1; 0; 0; 2; 6; 0; 0; 3; 0; 0; 4]
           (set_startStreaming true fresh)).
  - reflexivity.
  - reflexivity.
  - repeat constructor; unfold Spec.is_byte; lia.
Defined.

(** A buffer longer than every frame matches no row. *)
Lemma decode_long (t : list Z) (s : session) :
  (18 < length t)%nat -> decode t s = s.
Proof.
  intros Hlong. unfold decode.
  destruct (Nat.eqb_spec (length t) 18); [lia |].
  destruct (Nat.eqb_spec (length t) 8); [lia |].
  destruct (Nat.eqb_spec (length t) 3); [lia |].
  destruct (Nat.eqb_spec (length t) 13); [lia |].
  rewrite !andb_false_r. reflexivity.
Qed.

(** X12: the buffer is never cleared after a frame, and once it is
    longer than the longest frame (18 bytes) nothing is decoded any
    more: chunks that do not start with 0x00 or 0xFF are only
    appended, whatever they hold, until a chunk starts with a
    marker. *)
Theorem stale_buffer_grows (chunks : list (list Z)) (t : list Z)
  (s : session) :
  temp s = Some t -> (18 < length t)%nat ->
  Forall (fun c => c !! 0%nat <> Some 0 /\ c !! 0%nat <> Some 255) chunks ->
  feed chunks s = set_temp (Some (t ++ concat chunks)) s.
Proof.
  revert t s. induction chunks as [| c rest IH]; intros t s Htemp Hlong Hplain.
  - cbn [concat]. rewrite app_nil_r. symmetry. apply set_temp_same. exact Htemp.
  - inversion Hplain as [| ? ? [H0 H255] Hrest]; subst.
    rewrite feed_cons.
    rewrite <- (set_temp_same t s Htemp) at 1.
    rewrite read_value_append by assumption.
    rewrite decode_long by (rewrite length_app; lia).
    rewrite (IH (t ++ c)).
    + rewrite set_temp_set_temp. cbn [concat]. rewrite app_assoc. reflexivity.
    + apply temp_set_temp.
    + rewrite length_app. lia.
    + exact Hrest.
Qed.

(** A hardware-version reply that arrives, without marker, behind a
    stale 19-byte buffer is not decoded. *)
Lemma stale_buffer_grows_witness :
  feed [[1; 37; 3]]
    (set_temp (Some [0; 1; 2; 3; 4; 5; 6; 7; 8; 9; 10; 11; 12; 13; 14; 15;
                     16; 17; 18]) fresh)
  = set_temp
      (Some ([0; 1; 2; 3; 4; 5; 6; 7; 8; 9; 10; 11; 12; 13; 14; 15; 16; 17;
              18] ++ concat [[1; 37; 3]]))
      (set_temp (Some [0; 1; 2; 3; 4; 5; 6; 7; 8; 9; 10; 11; 12; 13; 14; 15;
                       16; 17; 18]) fresh).
Proof.
  apply (stale_buffer_grows [[1; 37; 3]]
           [0; 1; 2; 3; 4; 5; 6; 7; 8; 9; 10; 11; 12; 13; 14; 15; 16; 17; 18]).
  - reflexivity.
  - cbn. lia.
  - repeat constructor; discriminate.
Defined.

(** ** The whole timer chain *)




(** ** The port selection dropdown *)

Lemma references_true (o : Ports.PortOption) (p : nat) :
  Ports.references o p = true <-> Ports.port o = Some p.
Proof.
  unfold Ports.references. destruct (Ports.port o) as [q |].
  - rewrite Nat.eqb_eq. split; [intros ->; reflexivity | intros [= ->]; reflexivity].
  - split; discriminate.
Qed.

(** [findPortOption] returns [null] exactly for the ports that no
    option other than the prompt references. *)
Lemma find_from_none (opts : list Ports.PortOption) (p : nat) :
  forall i, Ports.find_from opts i p = None
            <-> ~ List.In p (Ports.listed_ports opts).
Proof.
  induction opts as [| o rest IH]; intros i.
  - cbn. tauto.
  - cbn [Ports.find_from Ports.listed_ports flat_map].
    change (flat_map _ rest) with (Ports.listed_ports rest).
    destruct (Ports.option_value o =? "prompt")%string; [apply IH |].
    destruct (Ports.references o p) eqn:Href.
    + apply references_true in Href. rewrite Href.
      split; [discriminate | intros H; exfalso; apply H; left; reflexivity].
    + rewrite IH. destruct (Ports.port o) as [q |] eqn:Hq; [| tauto].
      assert (q <> p).
      { intros ->. assert (Ports.references o p = true)
          by (apply references_true; exact Hq). congruence. }
      cbn [app List.In]. tauto.
Qed.

(** The option [findPortOption] returns references the port. *)
Lemma find_from_some (opts : list Ports.PortOption) (p : nat) :
  forall i j, Ports.find_from opts i p = Some j ->
    exists k o, j = (i + k)%nat /\ opts !! k = Some o
                /\ Ports.port o = Some p
                /\ (Ports.option_value o =? "prompt")%string = false.
Proof.
  induction opts as [| o rest IH]; intros i j Hfind; [discriminate Hfind |].
  cbn [Ports.find_from] in Hfind.
  destruct (Ports.option_value o =? "prompt")%string eqn:Hprompt.
  - destruct (IH _ _ Hfind) as (k & o' & -> & Hk & Hp & Hv).
    exists (S k), o'. repeat split; try assumption. lia.
  - destruct (Ports.references o p) eqn:Href.
    + injection Hfind as <-. exists 0%nat, o.
      repeat split; try assumption; [lia | apply references_true; exact Href].
    + destruct (IH _ _ Hfind) as (k & o' & -> & Hk & Hp & Hv).
      exists (S k), o'. repeat split; try assumption. lia.
Qed.

(** An option appended behind options that do not reference the port
    is the one found. *)
Lemma find_from_appended (opts : list Ports.PortOption) (p : nat)
  (o : Ports.PortOption) :
  (Ports.option_value o =? "prompt")%string = false ->
  Ports.port o = Some p ->
  forall i, Ports.find_from opts i p = None ->
            Ports.find_from (opts ++ [o]) i p = Some (i + length opts)%nat.
Proof.
  intros Hv Hp. induction opts as [| o' rest IH]; intros i Hnone.
  - cbn [app Ports.find_from length]. rewrite Hv.
    replace (Ports.references o p) with true
      by (symmetry; apply references_true; exact Hp).
    f_equal. lia.
  - cbn [app Ports.find_from length] in *.
    destruct (Ports.option_value o' =? "prompt")%string.
    + rewrite IH by exact Hnone. f_equal. lia.
    + destruct (Ports.references o' p); [discriminate Hnone |].
      rewrite IH by exact Hnone. f_equal. lia.
Qed.

(** X14: [maybeAddNewPort] returns an option that references the port
    and that [findPortOption] finds from then on.  It leaves the
    dropdown and the counter alone when the port is listed already,
    and otherwise appends one option labelled with the counter, which
    it advances; called again for the same port, it changes nothing. *)
Theorem maybe_add_port (p : nat) (sel : Ports.selector) :
  (exists o,
      Ports.options (snd (Ports.maybeAddNewPort p sel))
        !! fst (Ports.maybeAddNewPort p sel) = Some o
      /\ Ports.port o = Some p)
  /\ Ports.findPortOption (snd (Ports.maybeAddNewPort p sel)) p
     = Some (fst (Ports.maybeAddNewPort p sel))
  /\ (List.In p (Ports.listed_ports (Ports.options sel)) ->
      snd (Ports.maybeAddNewPort p sel) = sel)
  /\ (~ List.In p (Ports.listed_ports (Ports.options sel)) ->
      snd (Ports.maybeAddNewPort p sel)
      = Ports.mkSelector
          (Ports.options sel
           ++ [Ports.mkOption
                 ("Port " ++ Ports.decimal (Ports.portCounter sel))
                 ("Port " ++ Ports.decimal (Ports.portCounter sel))
                 (Some p)])
          (S (Ports.portCounter sel)))
  /\ Ports.maybeAddNewPort p (snd (Ports.maybeAddNewPort p sel))
     = Ports.maybeAddNewPort p sel.
Proof.
  unfold Ports.maybeAddNewPort at 1 2 3 4 5 6 8, Ports.findPortOption.
  destruct (Ports.find_from (Ports.options sel) 0 p) as [i |] eqn:Hfind.
  - cbn [fst snd].
    destruct (find_from_some _ _ _ _ Hfind) as (k & o & -> & Hk & Hp & _).
    cbn [Nat.add]. split; [| split; [| split; [| split]]].
    + exists o. split; assumption.
    + exact Hfind.
    + intros _. reflexivity.
    + intros Hnot. exfalso. apply (find_from_none _ p 0%nat) in Hnot.
      congruence.
    + unfold Ports.maybeAddNewPort, Ports.findPortOption. rewrite Hfind.
      reflexivity.
  - unfold Ports.addNewPort. cbn [fst snd Ports.options Ports.portCounter].
    assert (Hnew : Ports.find_from
                     (Ports.options sel
                      ++ [Ports.mkOption
                            ("Port " ++ Ports.decimal (Ports.portCounter sel))
                            ("Port " ++ Ports.decimal (Ports.portCounter sel))
                            (Some p)]) 0 p
                   = Some (length (Ports.options sel))).
    { rewrite find_from_appended; [reflexivity | reflexivity | reflexivity
                                   | exact Hfind]. }
    split; [| split; [| split; [| split]]].
    + eexists. split; [apply list_lookup_middle; reflexivity | reflexivity].
    + exact Hnew.
    + intros Hin. exfalso. apply (find_from_none _ p 0%nat) in Hfind.
      contradiction.
    + intros _. reflexivity.
    + unfold Ports.maybeAddNewPort, Ports.findPortOption.
      cbn [Ports.options]. rewrite Hnew, Hfind. reflexivity.
Qed.

(** Adding port 7 to a dropdown that holds the prompt only. *)
Lemma maybe_add_port_witness :
  snd (Ports.maybeAddNewPort 7%nat
         (Ports.initial [Ports.mkOption "prompt" "Add a port..." None]))
  = Ports.mkSelector
      ([Ports.mkOption "prompt" "Add a port..." None]
       ++ [Ports.mkOption ("Port " ++ Ports.decimal 1%nat)
             ("Port " ++ Ports.decimal 1%nat) (Some 7%nat)])
      2%nat.
Proof.
  apply (proj1 (proj2 (proj2 (proj2
           (maybe_add_port 7%nat
              (Ports.initial
                 [Ports.mkOption "prompt" "Add a port..." None])))))).
  cbn. tauto.
Defined.

(** Removing the option found removes the port's first listing. *)
Lemma listed_after_delete (opts : list Ports.PortOption) (q : nat) :
  forall i j, Ports.find_from opts i q = Some j ->
    exists k l1 l2,
      j = (i + k)%nat
      /\ Ports.listed_ports opts = l1 ++ q :: l2
      /\ Ports.listed_ports (delete k opts) = l1 ++ l2.
Proof.
  induction opts as [| o rest IH]; intros i j Hfind; [discriminate Hfind |].
  cbn [Ports.find_from] in Hfind.
  cbn [Ports.listed_ports flat_map].
  change (flat_map _ rest) with (Ports.listed_ports rest).
  destruct (Ports.option_value o =? "prompt")%string eqn:Hprompt.
  - destruct (IH _ _ Hfind) as (k & l1 & l2 & -> & Hl & Hd).
    exists (S k), l1, l2. split; [lia | split; [exact Hl |]].
    change (delete (S k) (o :: rest)) with (o :: delete k rest).
    cbn [Ports.listed_ports flat_map]. rewrite Hprompt. exact Hd.
  - destruct (Ports.references o q) eqn:Href.
    + injection Hfind as <-. apply references_true in Href.
      exists 0%nat, [], (Ports.listed_ports rest).
      rewrite Href. split; [lia | split; reflexivity].
    + destruct (IH _ _ Hfind) as (k & l1 & l2 & -> & Hl & Hd).
      exists (S k), ((match Ports.port o with Some q' => [q'] | None => [] end)
                     ++ l1), l2.
      split; [lia | split].
      * rewrite Hl, app_assoc. reflexivity.
      * change (delete (S k) (o :: rest)) with (o :: delete k rest).
        cbn [Ports.listed_ports flat_map]. rewrite Hprompt.
        change (flat_map _ (delete k rest))
          with (Ports.listed_ports (delete k rest)).
        rewrite Hd, app_assoc. reflexivity.
Qed.

(** X15: as long as ports enter the dropdown through
    [maybeAddNewPort], no port is listed twice: the ports listed stay
    pairwise distinct when a port is (maybe) added and when the option
    of a disconnected port is removed, and after the removal
    [findPortOption] no longer finds that port. *)
Theorem ports_stay_distinct (p q : nat) (sel : Ports.selector) :
  List.NoDup (Ports.listed_ports (Ports.options sel)) ->
  List.NoDup
    (Ports.listed_ports (Ports.options (snd (Ports.maybeAddNewPort p sel))))
  /\ List.NoDup
       (Ports.listed_ports (Ports.options (Ports.on_disconnect q sel)))
  /\ Ports.findPortOption (Ports.on_disconnect q sel) q = None.
Proof.
  intros Hnd. split; [| split].
  - unfold Ports.maybeAddNewPort, Ports.findPortOption.
    destruct (Ports.find_from (Ports.options sel) 0 p) eqn:Hfind;
      [exact Hnd |].
    unfold Ports.addNewPort. cbn [snd Ports.options].
    unfold Ports.listed_ports. rewrite flat_map_app.
    cbn [flat_map Ports.option_value Ports.port app].
    change (("Port " ++ Ports.decimal (Ports.portCounter sel) =? "prompt")%string)
      with false. cbv iota.
    apply (find_from_none _ p 0%nat) in Hfind.
    apply List.NoDup_app; [exact Hnd | constructor; [intros [] | constructor] |].
    intros x Hx [<- | []]. contradiction.
  - unfold Ports.on_disconnect, Ports.findPortOption.
    destruct (Ports.find_from (Ports.options sel) 0 q) eqn:Hfind;
      [| exact Hnd].
    cbn [Ports.options].
    destruct (listed_after_delete _ _ _ _ Hfind) as (k & l1 & l2 & -> & Hl & Hd).
    cbn [Nat.add]. rewrite Hd. rewrite Hl in Hnd.
    apply List.NoDup_remove_1 in Hnd. exact Hnd.
  - unfold Ports.on_disconnect, Ports.findPortOption.
    destruct (Ports.find_from (Ports.options sel) 0 q) eqn:Hfind;
      [| exact Hfind].
    cbn [Ports.options]. apply find_from_none.
    destruct (listed_after_delete _ _ _ _ Hfind) as (k & l1 & l2 & -> & Hl & Hd).
    cbn [Nat.add]. rewrite Hd. rewrite Hl in Hnd.
    apply List.NoDup_remove_2 in Hnd. exact Hnd.
Qed.

(** Two ports listed, the first one disconnected. *)
Lemma ports_stay_distinct_witness :
  List.NoDup
    (Ports.listed_ports
       (Ports.options
          (snd (Ports.maybeAddNewPort 5%nat
                  (Ports.mkSelector
                     [Ports.mkOption "prompt" "Add a port..." None;
                      Ports.mkOption "Port 1" "Port 1" (Some 4%nat);
                      Ports.mkOption "Port 2" "Port 2" (Some 5%nat)] 3%nat)))))
  /\ List.NoDup
       (Ports.listed_ports
          (Ports.options
             (Ports.on_disconnect 4%nat
                (Ports.mkSelector
                   [Ports.mkOption "prompt" "Add a port..." None;
                    Ports.mkOption "Port 1" "Port 1" (Some 4%nat);
                    Ports.mkOption "Port 2" "Port 2" (Some 5%nat)] 3%nat))))
  /\ Ports.findPortOption
       (Ports.on_disconnect 4%nat
          (Ports.mkSelector
             [Ports.mkOption "prompt" "Add a port..." None;
              Ports.mkOption "Port 1" "Port 1" (Some 4%nat);
              Ports.mkOption "Port 2" "Port 2" (Some 5%nat)] 3%nat)) 4%nat
     = None.
Proof.
  apply (ports_stay_distinct 5%nat 4%nat).
  cbn. repeat constructor; cbn; intuition discriminate.
Defined.

Lemma decimal_inj (a b : nat) : Ports.decimal a = Ports.decimal b -> a = b.
Proof.
  unfold Ports.decimal. intros H.
  apply (f_equal NilEmpty.uint_of_string) in H.
  rewrite !NilEmpty.usu in H. injection H as H.
  apply (f_equal Nat.of_uint) in H.
  rewrite !DecimalNat.Unsigned.of_to in H. exact H.
Qed.

(** X16: port labels are never reused.  If every option that
    references a port carries a label "Port k" with k below the
    counter, then no such option carries the label the next added port
    gets, and this remains so after a port is added and after the
    option of a disconnected port is removed (the counter never goes
    back). *)
Theorem port_labels_fresh (p q : nat) (sel : Ports.selector) :
  Ports.labelled_below (Ports.portCounter sel) (Ports.options sel) ->
  Forall
    (fun o =>
       Ports.port o = None
       \/ Ports.textContent o
          <> ("Port " ++ Ports.decimal (Ports.portCounter sel))%string)
    (Ports.options sel)
  /\ Ports.labelled_below
       (Ports.portCounter (snd (Ports.addNewPort p sel)))
       (Ports.options (snd (Ports.addNewPort p sel)))
  /\ Ports.labelled_below
       (Ports.portCounter (Ports.on_disconnect q sel))
       (Ports.options (Ports.on_disconnect q sel)).
Proof.
  unfold Ports.labelled_below. intros Hlab. split; [| split].
  - eapply Forall_impl; [exact Hlab |].
    intros o [Hnone | (k & Hk & Hlabel)]; [left; exact Hnone | right].
    rewrite Hlabel. intros Heq.
    cbn [String.append] in Heq. injection Heq as Heq.
    apply decimal_inj in Heq. lia.
  - unfold Ports.addNewPort. cbn [snd Ports.options Ports.portCounter].
    apply Forall_app. split.
    + eapply Forall_impl; [exact Hlab |].
      intros o [Hnone | (k & Hk & Hlabel)]; [left; exact Hnone | right].
      exists k. split; [lia | exact Hlabel].
    + constructor; [| constructor]. right.
      exists (Ports.portCounter sel). split; [lia | reflexivity].
  - unfold Ports.on_disconnect.
    destruct (Ports.findPortOption sel q) as [i |]; [| exact Hlab].
    cbn [Ports.options Ports.portCounter].
    apply Forall_delete. exact Hlab.
Qed.

(** Port 9 is added to a dropdown whose counter stands at 2. *)
Lemma port_labels_fresh_witness :
  Forall
    (fun o =>
       Ports.port o = None
       \/ Ports.textContent o <> ("Port " ++ Ports.decimal 2)%string)
    [Ports.mkOption "prompt" "Add a port..." None;
     Ports.mkOption "Port 1" "Port 1" (Some 4%nat)]
  /\ Ports.labelled_below 3
       ([Ports.mkOption "prompt" "Add a port..." None;
         Ports.mkOption "Port 1" "Port 1" (Some 4%nat)]
        ++ [Ports.mkOption ("Port " ++ Ports.decimal 2)
              ("Port " ++ Ports.decimal 2) (Some 9%nat)])
  /\ Ports.labelled_below 2
       (Ports.options
          (Ports.on_disconnect 4%nat
             (Ports.mkSelector
                [Ports.mkOption "prompt" "Add a port..." None;
                 Ports.mkOption "Port 1" "Port 1" (Some 4%nat)] 2%nat))).
Proof.
  apply (port_labels_fresh 9%nat 4%nat
           (Ports.mkSelector
              [Ports.mkOption "prompt" "Add a port..." None;
               Ports.mkOption "Port 1" "Port 1" (Some 4%nat)] 2%nat)).
  constructor; [left; reflexivity |].
  constructor; [| constructor].
  right. exists 1%nat. split; [cbn; lia | reflexivity].
Defined.

(** ** Writing from the terminal and from the Write button *)

(** Evaluation of the console's record updates, innermost first. *)
Ltac console_steps :=
  cbv [Console.set_sess Console.set_toFlush Console.sess Console.writable
       Console.toFlush Console.echo Console.flushOnEnter negb].

Lemma lock_kept_by_step (k : step) (s : session) :
  k <> release_writer -> writer_locked (run k s) = writer_locked s.
Proof.
  intros Hk. rewrite run_step_effect.
  destruct k; try congruence; cbn [Spec.step_effect];
    try destruct (Spec.exg_identity s);
    unfold Spec.one_byte_at_a_time; destruct s; reflexivity.
Qed.

Lemma lock_kept_by_steps (steps : list step) (s : session) :
  Forall (fun k => k <> release_writer) steps ->
  writer_locked (fold_left (fun s k => run k s) steps s) = writer_locked s.
Proof.
  revert s. induction steps as [| k rest IH]; intros s Hall; [reflexivity |].
  inversion Hall as [| ? ? Hk Hrest]; subst.
  cbn [fold_left]. rewrite IH by exact Hrest.
  apply lock_kept_by_step. exact Hk.
Qed.

(** X17: from [getWriter()] in [connectToPort] until the last timer
    releases the writer, nothing typed or clicked reaches the port:
    after any of the earlier timer callbacks, the terminal's data
    handler and the Write button's handler are left by the [TypeError]
    of their own [getWriter()], with nothing written and the pending
    line as it was (the keystroke is not even kept for the next
    flush). *)
Theorem setup_blocks_writes (encode : string -> list Z) (steps : list step)
  (data : string) (input bytes : list Z) (c : Console.console) :
  Console.writable c = true ->
  writer_locked (Console.sess c) = true ->
  Forall (fun k => k <> release_writer) steps ->
  (exists c',
      Console.onData encode data
        (Console.set_sess
           (fold_left (fun s k => run k s) steps (Console.sess c)) c)
      = Console.Aborted TypeError c'
      /\ written (Console.sess c')
         = written (fold_left (fun s k => run k s) steps (Console.sess c))
      /\ Console.toFlush c' = Console.toFlush c)
  /\ (ConvertHexStringToByteArray input = Normal bytes ->
      Console.onWriteClick input
        (Console.set_sess
           (fold_left (fun s k => run k s) steps (Console.sess c)) c)
      = Console.Aborted TypeError
          (Console.set_sess
             (fold_left (fun s k => run k s) steps (Console.sess c)) c)).
Proof.
  intros Hport Hlock Hsteps.
  pose proof (lock_kept_by_steps steps (Console.sess c) Hsteps) as Hkept.
  rewrite Hlock in Hkept.
  set (s' := fold_left (fun s k => run k s) steps (Console.sess c)) in *.
  destruct c as [s w pending e f]. cbn in Hport. subst w.
  split.
  - unfold Console.onData. console_steps.
    destruct e.
    + replace (writer_locked (term_write [Lit data] s')) with true
        by (destruct s'; symmetry; exact Hkept).
      eexists. split; [reflexivity |]. split; [| reflexivity].
      console_steps. destruct s'. reflexivity.
    + rewrite Hkept.
      eexists. split; [reflexivity |]. split; reflexivity.
  - intros Hconv. unfold Console.onWriteClick. rewrite Hconv.
    console_steps. rewrite Hkept. reflexivity.
Qed.

(** A key pressed and a command sent after the two identity queries. *)
Lemma setup_blocks_writes_witness :
  (exists c',
      Console.onData (fun _ => []) "a"
        (Console.set_sess
           (fold_left (fun s k => run k s)
              [send_firmware_query; send_hardware_query]
              (Console.sess (Console.mkConsole fresh true "" false true)))
           (Console.mkConsole fresh true "" false true))
      = Console.Aborted TypeError c'
      /\ written (Console.sess c')
         = written
             (fold_left (fun s k => run k s)
                [send_firmware_query; send_hardware_query]
                (Console.sess (Console.mkConsole fresh true "" false true)))
      /\ Console.toFlush c'
         = Console.toFlush (Console.mkConsole fresh true "" false true))
  /\ (ConvertHexStringToByteArray (units "07") = Normal [7] ->
      Console.onWriteClick (units "07")
        (Console.set_sess
           (fold_left (fun s k => run k s)
              [send_firmware_query; send_hardware_query]
              (Console.sess (Console.mkConsole fresh true "" false true)))
           (Console.mkConsole fresh true "" false true))
      = Console.Aborted TypeError
          (Console.set_sess
             (fold_left (fun s k => run k s)
                [send_firmware_query; send_hardware_query]
                (Console.sess (Console.mkConsole fresh true "" false true)))
             (Console.mkConsole fresh true "" false true))).
Proof.
  apply (setup_blocks_writes (fun _ => [])
           [send_firmware_query; send_hardware_query] "a" (units "07") [7]
           (Console.mkConsole fresh true "" false true)).
  - reflexivity.
  - reflexivity.
  - repeat constructor; discriminate.
Defined.

Lemma string_app_assoc (a b c : string) :
  ((a ++ b) ++ c)%string = (a ++ (b ++ c))%string.
Proof.
  induction a as [| x a IH]; [reflexivity |].
  cbn [String.append]. rewrite IH. reflexivity.
Qed.

Lemma string_app_nil_r (a : string) : (a ++ "")%string = a.
Proof.
  induction a as [| x a IH]; [reflexivity |].
  cbn [String.append]. rewrite IH. reflexivity.
Qed.

Lemma concat_cons (k : string) (keys : list string) :
  String.concat "" (k :: keys) = (k ++ String.concat "" keys)%string.
Proof.
  destruct keys as [| k' keys]; [cbn; rewrite string_app_nil_r |]; reflexivity.
Qed.

Lemma typed_app (encode : string -> list Z) (l1 l2 : list string)
  (c : Console.console) :
  Console.typed encode (l1 ++ l2) c
  = Console.typed encode l2 (Console.typed encode l1 c).
Proof. unfold Console.typed. apply fold_left_app. Qed.

Lemma typed_cons (encode : string -> list Z) (data : string)
  (rest : list string) (c : Console.console) :
  Console.typed encode (data :: rest) c
  = Console.typed encode rest
      match Console.onData encode data c with
      | Console.Done c' => c'
      | Console.Aborted _ c' => c'
      end.
Proof. reflexivity. Qed.

(** A key other than Enter, in flush-on-enter mode, with the port open
    and the writer free: it joins the pending line. *)
Lemma key_pending (encode : string -> list Z) (data pending : string)
  (s : session) (e : bool) :
  writer_locked s = false -> data <> Console.carriage_return ->
  Console.onData encode data (Console.mkConsole s true pending e true)
  = Console.Done
      (Console.mkConsole
         (if e then term_write [Lit data] s else s) true
         (pending ++ data)%string e true).
Proof.
  intros Hfree Hkey. apply String.eqb_neq in Hkey.
  unfold Console.onData. console_steps.
  destruct s. cbn in Hfree. subst. destruct e; session_steps;
    rewrite Hkey; reflexivity.
Qed.

(** Enter in the same situation: the pending line and the carriage
    return go out in one write. *)
Lemma key_enter (encode : string -> list Z) (pending : string)
  (s : session) (e : bool) :
  writer_locked s = false ->
  Console.onData encode Console.carriage_return
    (Console.mkConsole s true pending e true)
  = Console.Done
      (Console.mkConsole
         (writer_write (encode (pending ++ Console.carriage_return)%string)
            (if e then term_write [Lit Console.carriage_return] s else s))
         true "" e true).
Proof.
  intros Hfree. unfold Console.onData. console_steps.
  rewrite String.eqb_refl.
  destruct s. cbn in Hfree. subst. destruct e; reflexivity.
Qed.

Lemma keys_pending (encode : string -> list Z) (keys : list string) :
  Forall (fun d => d <> Console.carriage_return) keys ->
  forall (pending : string) (s : session) (e : bool),
    writer_locked s = false ->
    exists s',
      Console.typed encode keys (Console.mkConsole s true pending e true)
      = Console.mkConsole s' true (pending ++ String.concat "" keys)%string
          e true
      /\ written s' = written s /\ writer_locked s' = false.
Proof.
  induction 1 as [| k keys Hk Hkeys IH]; intros pending s e Hfree.
  - exists s. cbn [String.concat]. rewrite string_app_nil_r.
    repeat split. exact Hfree.
  - rewrite typed_cons, key_pending by assumption.
    destruct (IH (pending ++ k)%string
                (if e then term_write [Lit k] s else s) e)
      as (s' & Htyped & Hwritten & Hlock).
    { destruct e; [destruct s; exact Hfree | exact Hfree]. }
    exists s'. rewrite Htyped, concat_cons, string_app_assoc.
    repeat split; [| exact Hlock].
    rewrite Hwritten. destruct e; [destruct s |]; reflexivity.
Qed.

(** X18: with "flush on enter" checked, the port open and the writer
    free, the keys typed are held back: nothing is written until a
    data event is exactly "\r", and that event sends, in one write,
    everything pending since the last flush followed by the carriage
    return, and empties the pending line. *)
Theorem line_flushed_on_enter (encode : string -> list Z)
  (keys : list string) (c : Console.console) :
  Console.writable c = true -> Console.flushOnEnter c = true ->
  writer_locked (Console.sess c) = false ->
  Forall (fun d => d <> Console.carriage_return) keys ->
  written (Console.sess (Console.typed encode keys c))
  = written (Console.sess c)
  /\ Console.toFlush (Console.typed encode keys c)
     = (Console.toFlush c ++ String.concat "" keys)%string
  /\ written
       (Console.sess
          (Console.typed encode (keys ++ [Console.carriage_return]) c))
     = written (Console.sess c)
       ++ [encode (Console.toFlush c ++ String.concat "" keys
                   ++ Console.carriage_return)%string]
  /\ Console.toFlush
       (Console.typed encode (keys ++ [Console.carriage_return]) c)
     = ""%string.
Proof.
  intros Hport Hflush Hfree Hkeys.
  destruct c as [s w pending e f]. cbn in Hport, Hflush, Hfree. subst w f.
  destruct (keys_pending encode keys Hkeys pending s e Hfree)
    as (s' & Htyped & Hwritten & Hlock).
  rewrite typed_app, Htyped, typed_cons, key_enter by exact Hlock.
  change (Console.typed encode [] ?x) with x.
  cbn [Console.sess Console.toFlush].
  split; [exact Hwritten | split; [reflexivity | split; [| reflexivity]]].
  rewrite string_app_assoc.
  destruct e; [destruct s' |]; cbn in Hwritten |- *; rewrite <- Hwritten;
    reflexivity.
Qed.

(** The line "AT" typed key by key, then Enter. *)
Lemma line_flushed_on_enter_witness :
  written
    (Console.sess
       (Console.typed (fun _ => [65; 84; 13]) ["A"; "T"]
          (Console.mkConsole (set_writer_locked false fresh) true "" true
             true)))
  = written
      (Console.sess
         (Console.mkConsole (set_writer_locked false fresh) true "" true true))
  /\ Console.toFlush
       (Console.typed (fun _ => [65; 84; 13]) ["A"; "T"]
          (Console.mkConsole (set_writer_locked false fresh) true "" true
             true))
     = (Console.toFlush
          (Console.mkConsole (set_writer_locked false fresh) true "" true
             true)
        ++ String.concat "" ["A"; "T"])%string
  /\ written
       (Console.sess
          (Console.typed (fun _ => [65; 84; 13])
             (["A"; "T"] ++ [Console.carriage_return])
             (Console.mkConsole (set_writer_locked false fresh) true "" true
                true)))
     = written
         (Console.sess
            (Console.mkConsole (set_writer_locked false fresh) true "" true
               true))
       ++ [(fun _ : string => [65; 84; 13])
             (Console.toFlush
                (Console.mkConsole (set_writer_locked false fresh) true ""
                   true true)
              ++ String.concat "" ["A"; "T"] ++ Console.carriage_return)%string]
  /\ Console.toFlush
       (Console.typed (fun _ => [65; 84; 13])
          (["A"; "T"] ++ [Console.carriage_return])
          (Console.mkConsole (set_writer_locked false fresh) true "" true
             true))
     = ""%string.
Proof.
  apply (line_flushed_on_enter (fun _ => [65; 84; 13]) ["A"; "T"]
           (Console.mkConsole (set_writer_locked false fresh) true "" true
              true)).
  - reflexivity.
  - reflexivity.
  - reflexivity.
  - repeat constructor; discriminate.
Defined.

(** A data event with "flush on enter" unchecked. *)
Lemma key_sent (encode : string -> list Z) (data pending : string)
  (s : session) (e : bool) :
  writer_locked s = false ->
  Console.onData encode data (Console.mkConsole s true pending e false)
  = Console.Done
      (Console.mkConsole
         (writer_write (encode data)
            (if e then term_write [Lit data] s else s))
         true pending e false).
Proof.
  intros Hfree. unfold Console.onData. console_steps.
  destruct s. cbn in Hfree. subst. destruct e; reflexivity.
Qed.

(** X19: with "flush on enter" unchecked, the port open and the writer
    free, every data event is sent at once in a write of its own, in
    order, and a line left pending from flush-on-enter mode is neither
    sent nor dropped. *)
Theorem keys_sent_at_once (encode : string -> list Z)
  (events : list string) (c : Console.console) :
  Console.writable c = true -> Console.flushOnEnter c = false ->
  writer_locked (Console.sess c) = false ->
  written (Console.sess (Console.typed encode events c))
  = written (Console.sess c) ++ map encode events
  /\ Console.toFlush (Console.typed encode events c) = Console.toFlush c
  /\ writer_locked (Console.sess (Console.typed encode events c)) = false.
Proof.
  intros Hport Hflush Hfree.
  destruct c as [s w pending e f]. cbn in Hport, Hflush, Hfree. subst w f.
  cbn [Console.sess Console.toFlush].
  revert s Hfree. induction events as [| d rest IH]; intros s Hfree.
  - cbn [map]. rewrite app_nil_r. repeat split. exact Hfree.
  - rewrite typed_cons, key_sent by exact Hfree.
    destruct (IH (writer_write (encode d)
                    (if e then term_write [Lit d] s else s)))
      as (Hw & Ht & Hl).
    { destruct e; destruct s; exact Hfree. }
    rewrite Hw, Ht, Hl. repeat split.
    cbn [map]. destruct e; destruct s; cbn; rewrite <- app_assoc; reflexivity.
Qed.

(** Two keys typed with an old line pending. *)
Lemma keys_sent_at_once_witness :
  written
    (Console.sess
       (Console.typed (fun _ => [120]) ["x"; "x"]
          (Console.mkConsole (set_writer_locked false fresh) true "old" false
             false)))
  = written
      (Console.sess
         (Console.mkConsole (set_writer_locked false fresh) true "old" false
            false))
    ++ map (fun _ : string => [120]) ["x"; "x"]
  /\ Console.toFlush
       (Console.typed (fun _ => [120]) ["x"; "x"]
          (Console.mkConsole (set_writer_locked false fresh) true "old" false
             false))
     = Console.toFlush
         (Console.mkConsole (set_writer_locked false fresh) true "old" false
            false)
  /\ writer_locked
       (Console.sess
          (Console.typed (fun _ => [120]) ["x"; "x"]
             (Console.mkConsole (set_writer_locked false fresh) true "old"
                false false)))
     = false.
Proof.
  apply (keys_sent_at_once (fun _ => [120]) ["x"; "x"]
           (Console.mkConsole (set_writer_locked false fresh) true "old" false
              false));
    reflexivity.
Defined.

(** X20: the Write button converts the text before it looks at the
    port: an empty text or one of odd length makes the handler throw
    whatever the state of the port, and leaves everything as it was;
    a text that converts is sent in one write when the port is open
    and the writer free, and is dropped without error when no port is
    open. *)
Theorem write_click (input : list Z) (c : Console.console) :
  (input = [] \/ Nat.Odd (length input) ->
   exists message,
     Console.onWriteClick input c = Console.Aborted (Error message) c)
  /\ (forall bytes,
        ConvertHexStringToByteArray input = Normal bytes ->
        (Console.writable c = false ->
         Console.onWriteClick input c = Console.Done c)
        /\ (Console.writable c = true ->
            writer_locked (Console.sess c) = false ->
            exists c',
              Console.onWriteClick input c = Console.Done c'
              /\ written (Console.sess c')
                 = written (Console.sess c) ++ [bytes]
              /\ writer_locked (Console.sess c') = false
              /\ Console.toFlush c' = Console.toFlush c
              /\ term (Console.sess c') = term (Console.sess c))).
Proof.
  split.
  - intros Hbad. unfold Console.onWriteClick, ConvertHexStringToByteArray.
    destruct (Nat.eqb_spec (length input) 0) as [H0 | Hlen];
      [eexists; reflexivity |].
    destruct Hbad as [-> | Hodd]; [cbn in Hlen; congruence |].
    apply mod2_odd in Hodd.
    destruct (Nat.eqb_spec (length input mod 2) 0) as [H2 | _];
      [contradiction | eexists; reflexivity].
  - intros bytes Hconv. unfold Console.onWriteClick. rewrite Hconv.
    destruct c as [s w pending e f]. console_steps. split.
    + intros ->. reflexivity.
    + intros -> Hfree. rewrite Hfree. eexists. split; [reflexivity |].
      destruct s. cbn in Hfree. subst. repeat split.
Qed.

(** The stop command sent from the Write button. *)
Lemma write_click_witness :
  exists c',
    Console.onWriteClick (units "20")
      (Console.mkConsole (set_writer_locked false fresh) true "" false false)
    = Console.Done c'
    /\ written (Console.sess c')
       = written
           (Console.sess
              (Console.mkConsole (set_writer_locked false fresh) true ""
                 false false))
         ++ [[32]]
    /\ writer_locked (Console.sess c') = false
    /\ Console.toFlush c'
       = Console.toFlush
           (Console.mkConsole (set_writer_locked false fresh) true "" false
              false)
    /\ term (Console.sess c')
       = term
           (Console.sess
              (Console.mkConsole (set_writer_locked false fresh) true ""
                 false false)).
Proof.
  exact (proj2 (proj2 (write_click (units "20")
                         (Console.mkConsole (set_writer_locked false fresh)
                            true "" false false)) [32] eq_refl)
           eq_refl eq_refl).
Defined.

(** ** Chunks that hold more or less than one frame *)

(** X21: the table is consulted once per chunk and on the whole
    buffer.  A chunk that starts with a marker and whose length is
    none of 3, 8, 13 and 18 - two replies delivered together, for
    instance - only replaces the buffer (after the acknowledgement
    lines): neither reply is decoded. *)
Theorem coalesced_chunk_not_decoded (c : list Z) (s : session) :
  c !! 0%nat = Some 0 \/ c !! 0%nat = Some 255 ->
  length c <> 3%nat -> length c <> 8%nat ->
  length c <> 13%nat -> length c <> 18%nat ->
  read_value c s = set_temp (Some c) (ack_notice c s)
  /\ firmwareIdentifier (read_value c s) = firmwareIdentifier s
  /\ hardwareVersion (read_value c s) = hardwareVersion s.
Proof.
  intros Hm H3 H8 H13 H18.
  assert (E : read_value c s = set_temp (Some c) (ack_notice c s)).
  { rewrite read_value_marker by exact Hm. unfold decode.
    destruct (Nat.eqb_spec (length c) 18); [contradiction |].
    destruct (Nat.eqb_spec (length c) 8); [contradiction |].
    destruct (Nat.eqb_spec (length c) 3); [contradiction |].
    destruct (Nat.eqb_spec (length c) 13); [contradiction |].
    rewrite !andb_false_r. reflexivity. }
  rewrite E. split; [reflexivity |].
  destruct (identity_set_temp (Some c) (ack_notice c s)) as [-> ->].
  apply identity_ack.
Qed.

(** The firmware-version and hardware-version replies in one chunk of
    eleven bytes. *)
Lemma coalesced_chunk_not_decoded_witness :
  read_value [255; 47; 3; 0; 0; 0; 11; 0; 255; 37; 3] fresh
  = set_temp (Some [255; 47; 3; 0; 0; 0; 11; 0; 255; 37; 3])
      (ack_notice [255; 47; 3; 0; 0; 0; 11; 0; 255; 37; 3] fresh)
  /\ firmwareIdentifier
       (read_value [255; 47; 3; 0; 0; 0; 11; 0; 255; 37; 3] fresh)
     = firmwareIdentifier fresh
  /\ hardwareVersion
       (read_value [255; 47; 3; 0; 0; 0; 11; 0; 255; 37; 3] fresh)
     = hardwareVersion fresh.
Proof.
  apply (coalesced_chunk_not_decoded
           [255; 47; 3; 0; 0; 0; 11; 0; 255; 37; 3] fresh);
    [right; reflexivity | | | |]; cbn; lia.
Defined.
